(** * py3status-meetings: a shallow embedding of [py3status-meetings.py]

    The module polls a calendar provider for the events of the next 24
    hours, drops all-day and already-started events, sorts the rest by
    start time and renders "In <duration> <title>" for the first one.

    Modelling choices, shared by the whole file:
    - Python [int] is [Z].  The methods of Duration divide in IEEE
      doubles; they are embedded twice: [DurationM] computes over the
      exact rationals and serves wherever the second count is within one
      day, [DurationD] rounds as the doubles do and serves for
      [__str__] on every integer.  The two print the same text for
      second counts below 2^50 in absolute value ([str_double_bounded]);
    - a [datetime.timedelta] is the normalised triple Python stores
      (days, seconds, microseconds);
    - an aware [datetime] is the instant it denotes (microseconds since
      the epoch) together with its [tzinfo];
    - a provider record (a JSON object) is a [gmap] keyed by strings;
    - exceptions are the [Raise] results of an error monad, and the wall
      clock is a stream of readings indexed by a tick counter that every
      [datetime.now]/[utcnow] call advances. *)

From Stdlib Require Import ZArith QArith Qround Qpower String Ascii List Sorted Permutation Lia Lqa.
From Stdlib Require Import DecimalString.
From stdpp Require Import base option list gmap strings sorting.

Local Open Scope Z_scope.
Local Open Scope string_scope.

(** ** Exceptions and results *)

Inductive exn : Type :=
| TypeError (msg : string)
| KeyError (key : string)
| ValueError (arg : string)
| UnknownTimeZoneError (zone : string)
| HttpError (what : string)
| OverflowError (msg : string).

Inductive result (A : Type) : Type :=
| Ok (a : A)
| Raise (e : exn).
Arguments Ok {A} a.
Arguments Raise {A} e.

(** ** datetime.timedelta *)

Module Timedelta.

(** The three fields a [timedelta] object stores. *)
Record timedelta : Type := mk {
  days : Z;
  seconds : Z;
  microseconds : Z
}.

(** [timedelta(days=d, seconds=s, microseconds=us)]: Python carries the
    microseconds into the seconds and the seconds into the days with
    [divmod], which rounds towards minus infinity like [Z.div]. *)
Definition make (d s us : Z) : timedelta :=
  let s' := s + us / 1000000 in
  {| days := d + s' / 86400;
     seconds := s' mod 86400;
     microseconds := us mod 1000000 |}.

(** The span of [us] microseconds, as datetime subtraction builds it. *)
Definition of_micros (us : Z) : timedelta := make 0 0 us.

(** The invariant of the stored triple. *)
Definition normal (t : timedelta) : Prop :=
  0 <= seconds t < 86400 /\ 0 <= microseconds t < 1000000.

(** The whole length of the span in microseconds. *)
Definition total_micros (t : timedelta) : Z :=
  (days t * 86400 + seconds t) * 1000000 + microseconds t.

(** [t.total_seconds()] with the fractional part dropped, under the two
    readings of "dropped": towards minus infinity and towards zero. *)
Definition whole_seconds_floor (t : timedelta) : Z := total_micros t / 1000000.
Definition whole_seconds_trunc (t : timedelta) : Z := total_micros t ÷ 1000000.

End Timedelta.
Export Timedelta(timedelta).

(** ** Duration *)

(** What a caller may hand to [Duration(...)]: the two accepted types and
    everything else. *)
Inductive pyarg : Type :=
| PyInt (n : Z)
| PyTimedelta (t : timedelta)
| PyOther.

Record Duration : Type := mkDuration { seconds : Z }.

Module DurationM.

(** [Duration.__init__] *)
Definition init (form : pyarg) : result Duration :=
  match form with
  | PyInt n => Ok {| seconds := n |}
  | PyTimedelta t => Ok {| seconds := Timedelta.seconds t |}
  | PyOther => Raise (TypeError "Expected int or timedelta")
  end.

(** Python's [x % y] on numbers: [x - y * floor (x / y)]. *)
Definition pymod (x y : Q) : Q := (x - y * inject_Z (Qfloor (x / y)))%Q.

(** ['%d' % x] first converts [x] with [int], which rounds towards zero. *)
Definition trunc (x : Q) : Z := Qnum x ÷ Zpos (Qden x).

(** The decimal numeral of an integer. *)
Definition dec (z : Z) : string := NilZero.string_of_int (Z.to_int z).

Definition fmt_d (x : Q) : string := dec (trunc x).

Definition minutes (d : Duration) : Q := pymod (inject_Z (seconds d) / 60) 60.

Definition minutes_full (d : Duration) : Q := (inject_Z (seconds d) / 60)%Q.

Definition hours_full (d : Duration) : Q := (minutes_full d / 60)%Q.

(** [Duration.__str__] *)
Definition str (d : Duration) : string :=
  let hours := if Qlt_le_dec (hours_full d) 1 then ""
               else fmt_d (hours_full d) ++ "h " in
  let minutes := fmt_d (minutes d) ++ "m" in
  hours ++ minutes.

End DurationM.

(** ** The same methods in IEEE doubles *)

(** Python computes [seconds / 60], [... / 60] and [... % 60] in IEEE
    binary64.  [Double] rounds a rational to the nearest number with a
    53-bit significand, ties to even; the quotients of a Duration are
    never small enough to be subnormal, and the one operation that can
    leave the range of doubles, the division of the integer by 60, is
    checked in [truediv]. *)
Module Double.

(** The integer nearest to [q], the even one of the two at a tie. *)
Definition half_even (q : Q) : Z :=
  let f := Qfloor q in
  match Qcompare (q - inject_Z f) (1 # 2) with
  | Lt => f
  | Gt => (f + 1)%Z
  | Eq => if Z.even f then f else (f + 1)%Z
  end.

(** For [x > 0], the [e] with [2^52 <= x / 2^e < 2^53]. *)
Definition exponent (x : Q) : Z :=
  let k := (Z.log2 (Qnum x) - Z.log2 (Zpos (Qden x)))%Z in
  if Qle_bool (2 ^ k) x then (k - 52)%Z else (k - 53)%Z.

Definition round_pos (x : Q) : Q :=
  let e := exponent x in (inject_Z (half_even (x / 2 ^ e)) * 2 ^ e)%Q.

(** The double nearest to [x]. *)
Definition round (x : Q) : Q :=
  match Qnum x with
  | 0%Z => 0%Q
  | Zpos _ => round_pos x
  | Zneg _ => (- round_pos (- x))%Q
  end.

(** The unit roundoff, 2^-53. *)
Definition u : Q := 1 # 9007199254740992.

(** C's [fmod]: exact, with the sign of [x]. *)
Definition fmod (x y : Q) : Q := (x - y * inject_Z (DurationM.trunc (x / y)))%Q.

(** Python's [x % y] on floats, for [y > 0]: [fmod], moved into [0, y) by
    one addition when negative. *)
Definition float_mod (x y : Q) : Q :=
  let m := fmod x y in
  match Qnum m with
  | 0%Z => 0%Q
  | Zpos _ => m
  | Zneg _ => round (m + y)
  end.

(** Python's [a / b] on integers: the correctly rounded quotient, or
    [OverflowError] when it is not below 2^1024 in absolute value. *)
Definition truediv (a b : Z) : result Q :=
  let r := round (inject_Z a / inject_Z b) in
  if Qle_bool (inject_Z (2 ^ 1024)) r || Qle_bool r (inject_Z (- 2 ^ 1024))
  then Raise (OverflowError "integer division result too large for a float")
  else Ok r.

End Double.

Module DurationD.

(** [Duration.minutes] *)
Definition minutes (d : Duration) : result Q :=
  match Double.truediv (seconds d) 60 with
  | Ok x => Ok (Double.float_mod x 60)
  | Raise e => Raise e
  end.

(** [Duration.minutes_full] *)
Definition minutes_full (d : Duration) : result Q := Double.truediv (seconds d) 60.

(** [Duration.hours_full] *)
Definition hours_full (d : Duration) : result Q :=
  match minutes_full d with
  | Ok x => Ok (Double.round (x / 60))
  | Raise e => Raise e
  end.

(** [Duration.__str__] *)
Definition str (d : Duration) : result string :=
  match hours_full d with
  | Raise e => Raise e
  | Ok h =>
    let hours := if Qlt_le_dec h 1 then ""
                 else DurationM.fmt_d h ++ "h " in
    match minutes d with
    | Raise e => Raise e
    | Ok m => Ok (hours ++ DurationM.fmt_d m ++ "m")
    end
  end.

End DurationD.

(** [get_duration_color] *)
Definition get_duration_color (time_until : Duration) : option string :=
  if Qlt_le_dec (DurationM.minutes_full time_until) 20 then Some "#FF0000"
  else if Qlt_le_dec (DurationM.minutes_full time_until) 120 then Some "#FFFF00"
  else None.

(** ** Time zones and aware datetimes *)

(** A [tzinfo] object of pytz: the [pytz.utc] singleton or a zone of the
    database, named by its key. *)
Inductive tzinfo : Type :=
| UTC
| Zone (name : string).

(** An aware datetime: the instant it denotes, in microseconds since the
    epoch, and the zone its fields are expressed in.  Comparison and
    subtraction of aware datetimes go through the instants (two pytz
    datetimes that share their [tzinfo] object share their UTC offset, so
    comparing their fields is comparing their instants). *)
Record datetime : Type := mkDatetime {
  instant : Z;
  dt_tz : tzinfo
}.

(** [a - b] on aware datetimes. *)
Definition datetime_sub (a b : datetime) : timedelta :=
  Timedelta.of_micros (instant a - instant b).

(** ** Provider records *)

(** The values found in a provider event: a string or a nested object
    whose members are strings (the [start] and [end] objects).  Null,
    numbers and lists, which the provider's schema does not put under the
    keys the module reads, are left out. *)
Inductive jvalue : Type :=
| JStr (s : string)
| JObj (o : gmap string string).

(** ** Event *)

Record Event : Type := mkEvent {
  summary : jvalue;
  tz : tzinfo;
  start : datetime;
  end_ : datetime;
  color : string
}.

(** ** The collaborators: clock, zone database, ISO parser, provider, host *)

Record Env : Type := mkEnv {
  (** the instant read by the n-th call of [datetime.now]/[utcnow] *)
  clock : nat -> Z;
  (** the zone database behind [pytz.timezone]; [None] is an unknown key *)
  tz_database : string -> option tzinfo;
  (** the instant denoted by [datetime.fromisoformat(s).astimezone(_)],
      which does not depend on the target zone; [None] is a [ValueError] *)
  iso_instant : string -> option Z;
  (** [calendarList().list().execute()]: the ['items'] member when present *)
  calendarList_list : result (option (list (gmap string string)));
  (** [events().list(calendarId, timeMin, timeMax, maxResults=10,
      singleEvents=True, orderBy='startTime').execute()], the two bounds
      given as the instants whose [isoformat() + 'Z'] the code sends *)
  events_list : string -> Z -> Z -> result (option (list (gmap string jvalue)));
  (** [py3.time_in] of the host *)
  time_in : Z -> Z
}.

(** ** The monad of the module: clock ticks and exceptions *)

Definition M (A : Type) : Type := nat -> result (A * nat).

#[export] Instance M_ret : MRet M := λ A a n, Ok (a, n).
#[export] Instance M_bind : MBind M := λ A B f m n,
  match m n with
  | Ok (a, n') => f a n'
  | Raise e => Raise e
  end.

Definition lift {A} (r : result A) : M A := λ n,
  match r with
  | Ok a => Ok (a, n)
  | Raise e => Raise e
  end.

Definition raise {A} (e : exn) : M A := λ _, Raise e.

(** [d[key]] on a dict: the member or a [KeyError]. *)
Definition getitem {V} (d : gmap string V) (key : string) : M V :=
  match d !! key with
  | Some v => mret v
  | None => raise (KeyError key)
  end.

(** [key in d] on a dict. *)
Definition contains {V} (d : gmap string V) (key : string) : bool :=
  bool_decide (is_Some (d !! key)).

(** [needle in s] on a string. *)
Fixpoint substring_of (needle s : string) : bool :=
  String.prefix needle s ||
  match s with
  | EmptyString => false
  | String _ s' => substring_of needle s'
  end.

(** [datetime.datetime.utcnow()] and [datetime.datetime.now(tz)] *)
Definition utcnow (E : Env) : M Z := λ n, Ok (clock E n, S n).

Definition datetime_now (E : Env) (z : tzinfo) : M datetime :=
  λ n, Ok ({| instant := clock E n; dt_tz := z |}, S n).

(** [str.upper] on the ASCII letters. *)
Definition upper_ascii (c : ascii) : ascii :=
  let n := nat_of_ascii c in
  if ((97 <=? n) && (n <=? 122))%nat then ascii_of_nat (n - 32) else c.

Fixpoint upper (s : string) : string :=
  match s with
  | EmptyString => EmptyString
  | String c s' => String (upper_ascii c) (upper s')
  end.

(** [pytz.timezone]: any spelling of "utc" is the [pytz.utc] singleton,
    other names go to the database. *)
Definition timezone (E : Env) (zone : string) : M tzinfo :=
  if String.eqb (upper zone) "UTC" then mret UTC
  else match tz_database E zone with
       | Some z => mret z
       | None => raise (UnknownTimeZoneError zone)
       end.

(** [datetime.datetime.fromisoformat(s).astimezone(tz)].  Every failure
    is a [ValueError] here; the [OverflowError] of [astimezone] on a date
    next to [datetime.min] or [datetime.max] is not told apart. *)
Definition fromisoformat_astimezone (E : Env) (s : string) (z : tzinfo) : M datetime :=
  match iso_instant E s with
  | Some i => mret {| instant := i; dt_tz := z |}
  | None => raise (ValueError s)
  end.

(** [obj[key]] where [obj] was itself read from an event: subscripting a
    string with a string is a [TypeError] (its message is the one of
    Python up to 3.10; 3.11 appends ", not 'str'"). *)
Definition getmember (v : jvalue) (key : string) : M string :=
  match v with
  | JObj o => getitem o key
  | JStr _ => raise (TypeError "string indices must be integers")
  end.

(** [key in v] for a value read from an event: key membership on an
    object, substring test on a string. *)
Definition jcontains (v : jvalue) (key : string) : bool :=
  match v with
  | JObj o => contains o key
  | JStr s => substring_of key s
  end.

Module EventM.

(** [Event.time_until] *)
Definition time_until (E : Env) (self : Event) : M Duration :=
  now ← datetime_now E (tz self);
  lift (DurationM.init (PyTimedelta (datetime_sub (start self) now))).

(** What an f-string prints for a title: the string itself, or what
    [str] gives for a dict, the built-in being the parameter [dict_str]. *)
Definition py_str (dict_str : gmap string string → string) (v : jvalue) : string :=
  match v with
  | JStr s => s
  | JObj o => dict_str o
  end.

(** [Event.to_string_next] *)
Definition to_string_next (dict_str : gmap string string → string)
    (self precedingEvent : Event) : result string :=
  match DurationM.init (PyTimedelta (datetime_sub (end_ self) (start self))) with
  | Raise e => Raise e
  | Ok duration =>
    match DurationM.init
            (PyTimedelta (datetime_sub (start self) (end_ precedingEvent))) with
    | Raise e => Raise e
    | Ok duration_between =>
      Ok (DurationM.str duration_between ++ " > " ++ py_str dict_str (summary self)
          ++ " (" ++ DurationM.str duration ++ ")")
    end
  end.

End EventM.

(** ** Credentials and the collaborators of [GoogleCalendar.__init__] *)

(** What [__init__] reads of a credentials object. *)
Record Credentials : Type := mkCredentials {
  valid : bool;
  expired : bool;
  refresh_token : option string
}.

(** The calls [__init__] makes to its collaborators, in order. *)
Inductive action : Type :=
| ALoad
| ARefresh (c : Credentials)
| ARunFlow
| ADump (c : Credentials)
| ABuild (c : Credentials).

(** The collaborators, [Service] being what [build] returns. *)
Record AuthEnv (Service : Type) : Type := mkAuthEnv {
  (** [token.pickle]: [None] when [os.path.exists] is false, otherwise
      what [open] and [pickle.load] give *)
  token_pickle : option (result Credentials);
  (** the credentials object after [creds.refresh(Request())] *)
  refresh : Credentials → result Credentials;
  (** [InstalledAppFlow.from_client_secrets_file(...)] followed by
      [flow.run_local_server(port=0)] *)
  run_local_server : result Credentials;
  (** [open('token.pickle', 'wb')] and [pickle.dump] *)
  dump : Credentials → result unit;
  (** [build('calendar', 'v3', credentials=creds)] *)
  build : Credentials → result Service
}.
Arguments token_pickle {Service} _.
Arguments refresh {Service} _ _.
Arguments run_local_server {Service} _.
Arguments dump {Service} _ _.
Arguments build {Service} _ _.

(** A run of [__init__]: the calls made and the outcome. *)
Definition W (A : Type) : Type := (list action * result A)%type.

#[export] Instance W_ret : MRet W := λ A a, ([], Ok a).
#[export] Instance W_bind : MBind W := λ A B f m,
  match m with
  | (tr, Ok a) => let (tr', r) := f a in ((tr ++ tr')%list, r)
  | (tr, Raise e) => (tr, Raise e)
  end.

(** One call of a collaborator. *)
Definition call {A} (a : action) (r : result A) : W A := ([a], r).

(** Truth value of [creds.refresh_token]: [None] and the empty string
    are false. *)
Definition truthy (t : option string) : bool :=
  match t with
  | Some s => negb (String.eqb s "")
  | None => false
  end.

(** ** GoogleCalendar *)

Module GoogleCalendar.

(** The inner [if creds and creds.expired and creds.refresh_token] of
    [__init__]: refresh the stored credentials or run the flow. *)
Definition obtain {Service} (A : AuthEnv Service) (creds : option Credentials)
    : W Credentials :=
  match creds with
  | Some c =>
    if expired c && truthy (refresh_token c) then call (ARefresh c) (refresh A c)
    else call ARunFlow (run_local_server A)
  | None => call ARunFlow (run_local_server A)
  end.

(** The body of [if not creds or not creds.valid]: obtain credentials
    and save them for the next run. *)
Definition login {Service} (A : AuthEnv Service) (creds : option Credentials)
    : W Credentials :=
  c ← obtain A creds;
  _ ← call (ADump c) (dump A c);
  mret c.

(** [GoogleCalendar.__init__], returning the service it stores. *)
Definition __init__ {Service} (A : AuthEnv Service) : W Service :=
  creds ← match token_pickle A with
          | Some loaded => c ← call ALoad loaded; mret (Some c)
          | None => mret None
          end;
  creds ← match creds with
          | Some c => if negb (valid c) then login A creds else mret c
          | None => login A creds
          end;
  call (ABuild creds) (build A creds).

(** The zone expression of [_get_events]:
    [timezone(event['start']['timeZone']) if 'timezone' in event['start']
     else timezone('utc')]. *)
Definition resolve_tz (E : Env) (event_start : jvalue) : M tzinfo :=
  if jcontains event_start "timezone" then
    zone ← getmember event_start "timeZone";
    timezone E zone
  else timezone E "utc".

(** One turn of the [for event in events] loop of [_get_events]:
    [None] is a [continue], [Some ev] the event appended. *)
Definition parse_event (E : Env) (color : string)
    (event : gmap string jvalue) : M (option Event) :=
  event_start ← getitem event "start";
  if jcontains event_start "date" then mret None
  else
    tz ← resolve_tz E event_start;
    start_str ← getmember event_start "dateTime";
    start_date ← fromisoformat_astimezone E start_str tz;
    now ← datetime_now E tz;
    if (instant start_date <? instant now)%Z then mret None
    else
      event_end ← getitem event "end";
      end_str ← getmember event_end "dateTime";
      end_date ← fromisoformat_astimezone E end_str tz;
      summary ← getitem event "summary";
      mret (Some {| summary := summary; tz := tz; start := start_date;
                    end_ := end_date; color := color |}).

(** The loop itself, [parsed_events] being the list appended to. *)
Fixpoint parse_events (E : Env) (color : string)
    (events : list (gmap string jvalue)) (parsed_events : list Event)
    : M (list Event) :=
  match events with
  | [] => mret parsed_events
  | event :: rest =>
    r ← parse_event E color event;
    match r with
    | Some ev => parse_events E color rest (parsed_events ++ [ev])
    | None => parse_events E color rest parsed_events
    end
  end.

Definition day_micros : Z := 24 * 3600 * 1000000.

(** [GoogleCalendar._get_events] *)
Definition _get_events (E : Env) (calendar_id color : string) : M (list Event) :=
  now ← utcnow E;
  top ← (t ← utcnow E; mret (t + day_micros));
  events_result ← lift (events_list E calendar_id now top);
  let events := default [] events_result in
  parse_events E color events [].

(** [[cal for cal in raw_calendars if cal['summary'] in calendar_names]] *)
Fixpoint applicable (calendar_names : list string)
    (raw_calendars : list (gmap string string)) : M (list (gmap string string)) :=
  match raw_calendars with
  | [] => mret []
  | cal :: rest =>
    name ← getitem cal "summary";
    kept ← applicable calendar_names rest;
    mret (if bool_decide (name ∈ calendar_names) then cal :: kept else kept)
  end.

(** The [for cal in applicable_calendars] loop, extending [all_events]. *)
Fixpoint collect (E : Env) (cals : list (gmap string string))
    (all_events : list Event) : M (list Event) :=
  match cals with
  | [] => mret all_events
  | cal :: rest =>
    id ← getitem cal "id";
    color ← getitem cal "backgroundColor";
    evs ← _get_events E id color;
    collect E rest (all_events ++ evs)
  end.

(** [list.sort(key=attrgetter('start'))]: the stable ascending sort on
    the start instants.  The element at the head of the unsorted list
    goes in front of the first sorted element that is not smaller. *)
Fixpoint insert_by_start (e : Event) (l : list Event) : list Event :=
  match l with
  | [] => [e]
  | x :: l' =>
    if (instant (start x) <? instant (start e))%Z then x :: insert_by_start e l'
    else e :: x :: l'
  end.

Fixpoint sort_by_start (l : list Event) : list Event :=
  match l with
  | [] => []
  | e :: l' => insert_by_start e (sort_by_start l')
  end.

(** [GoogleCalendar.get_next_events] *)
Definition get_next_events (E : Env) (calendar_names : list string) : M (list Event) :=
  events_result ← lift (calendarList_list E);
  let raw_calendars := default [] events_result in
  applicable_calendars ← applicable calendar_names raw_calendars;
  all_events ← collect E applicable_calendars [];
  mret (sort_by_start all_events).

End GoogleCalendar.

(** ** Py3status *)

(** One entry of the ['composite'] list. *)
Record segment : Type := mkSegment {
  seg_full_text : jvalue;
  seg_color : option string
}.

(** The dict [meetings] returns: ['cached_until'] always, then either
    ['composite'] or ['full_text']. *)
Record output : Type := mkOutput {
  cached_until : Z;
  composite : option (list segment);
  full_text : option string
}.

Module Py3status.

(** [Py3status.meetings], the tracked names being the class attribute
    [calendar_names]. *)
Definition meetings (E : Env) (calendar_names : list string) : M output :=
  let cached := time_in E 60 in
  all_events ← GoogleCalendar.get_next_events E calendar_names;
  match all_events with
  | next_event :: _ =>
    time_until ← EventM.time_until E next_event;
    mret {| cached_until := cached;
            composite := Some
              [ {| seg_full_text := JStr ("In " ++ DurationM.str time_until ++ " ");
                   seg_color := get_duration_color time_until |};
                {| seg_full_text := summary next_event;
                   seg_color := Some (color next_event) |} ];
            full_text := None |}
  | [] =>
    mret {| cached_until := cached; composite := None;
            full_text := Some "No upcoming events" |}
  end.

End Py3status.

(** ** A sample provider, used to run the module on concrete records *)

Module Sample.

(** 2026-11-05T14:50:00Z, in microseconds since the epoch. *)
Definition t0 : Z := 1793890200000000.

Definition minute : Z := 60 * 1000000.

(** The strings of the sample records and the instants they denote. *)
Definition iso (s : string) : option Z :=
  if String.eqb s "2026-11-05T10:00:00-05:00" then Some (t0 + 10 * minute)
  else if String.eqb s "2026-11-05T10:30:00-05:00" then Some (t0 + 40 * minute)
  else if String.eqb s "2026-11-05T16:20:00+00:00" then Some (t0 + 90 * minute)
  else if String.eqb s "2026-11-05T17:00:00+00:00" then Some (t0 + 130 * minute)
  else if String.eqb s "2026-11-05T14:50:00+00:00" then Some t0
  else None.

Definition zones (name : string) : option tzinfo :=
  if String.eqb name "America/New_York" then Some (Zone "America/New_York")
  else None.

(** A timed event as the provider sends it: the zone is under the key
    [timeZone]. *)
Definition standup : gmap string jvalue :=
  {[ "summary" := JStr "Standup";
     "start" := JObj {[ "dateTime" := "2026-11-05T10:00:00-05:00";
                        "timeZone" := "America/New_York" ]};
     "end" := JObj {[ "dateTime" := "2026-11-05T10:30:00-05:00";
                      "timeZone" := "America/New_York" ]} ]}.

Definition lunch : gmap string jvalue :=
  {[ "summary" := JStr "Lunch";
     "start" := JObj {[ "dateTime" := "2026-11-05T16:20:00+00:00" ]};
     "end" := JObj {[ "dateTime" := "2026-11-05T17:00:00+00:00" ]} ]}.

(** An event that starts at [t0] sharp. *)
Definition sync : gmap string jvalue :=
  {[ "summary" := JStr "Sync";
     "start" := JObj {[ "dateTime" := "2026-11-05T14:50:00+00:00" ]};
     "end" := JObj {[ "dateTime" := "2026-11-05T10:00:00-05:00" ]} ]}.

(** An all-day event: its [start] has a [date] and no [dateTime]. *)
Definition holiday : gmap string jvalue :=
  {[ "summary" := JStr "Holiday";
     "start" := JObj {[ "date" := "2026-11-05" ]};
     "end" := JObj {[ "date" := "2026-11-06" ]} ]}.

Definition work : gmap string string :=
  {[ "id" := "work@example.org"; "summary" := "Work"; "backgroundColor" := "#111" ]}.

Definition life : gmap string string :=
  {[ "id" := "life@example.org"; "summary" := "Life"; "backgroundColor" := "#222" ]}.

(** The account sees [Life] and [Work]; [work_events] are the events of
    [Work], [Life] holds [lunch]. *)
Definition env (clock : nat -> Z) (work_events : list (gmap string jvalue)) : Env :=
  {| clock := clock;
     tz_database := zones;
     iso_instant := iso;
     calendarList_list := Ok (Some [life; work]);
     events_list := λ id _ _,
       if String.eqb id "work@example.org" then Ok (Some work_events)
       else if String.eqb id "life@example.org" then Ok (Some [lunch])
       else Raise (HttpError "404");
     time_in := λ s, 1793890200 + s |}.

(** The events the module builds from the records above. *)
Definition standup_event : Event :=
  {| summary := JStr "Standup"; tz := UTC;
     start := {| instant := t0 + 10 * minute; dt_tz := UTC |};
     end_ := {| instant := t0 + 40 * minute; dt_tz := UTC |};
     color := "#111" |}.

Definition lunch_event (color : string) : Event :=
  {| summary := JStr "Lunch"; tz := UTC;
     start := {| instant := t0 + 90 * minute; dt_tz := UTC |};
     end_ := {| instant := t0 + 130 * minute; dt_tz := UTC |};
     color := color |}.

Definition sync_event : Event :=
  {| summary := JStr "Sync"; tz := UTC;
     start := {| instant := t0; dt_tz := UTC |};
     end_ := {| instant := t0 + 10 * minute; dt_tz := UTC |};
     color := "#111" |}.

(** A clock that starts at [t0] and advances one second per reading. *)
Definition ticking (n : nat) : Z := t0 + Z.of_nat n * 1000000.

(** A clock stopped at [t0]. *)
Definition frozen (n : nat) : Z := t0.

End Sample.

(** ** Vocabulary of the properties *)

(** The order the sort works with. *)
Definition start_le (e1 e2 : Event) : Prop :=
  instant (start e1) <= instant (start e2).

(** The events of [l] that start at the instant [t], in the order of [l]. *)
Definition starting_at (t : Z) (l : list Event) : list Event :=
  filter (λ ev, instant (start ev) = t) l.

(** An all-day event: its [start] object carries a [date]. *)
Definition is_all_day (event : gmap string jvalue) : bool :=
  match event !! "start" with
  | Some (JObj o) => contains o "date"
  | _ => false
  end.

(** The same collaborators, the provider withholding every all-day event. *)
Definition without_all_day (E : Env) : Env :=
  {| clock := clock E;
     tz_database := tz_database E;
     iso_instant := iso_instant E;
     calendarList_list := calendarList_list E;
     events_list := λ id timeMin timeMax,
       match events_list E id timeMin timeMax with
       | Ok items => Ok (Some (filter (λ ev, is_all_day ev = false) (default [] items)))
       | Raise e => Raise e
       end;
     time_in := time_in E |}.

(** [produced E names ev event k]: the event [ev] was appended by the loop
    of [_get_events] from the record [event], which the provider sent for
    a calendar tracked by [names], the [datetime.now] of that turn being
    the [k]-th reading of the clock. *)
Inductive produced (E : Env) (calendar_names : list string)
    (ev : Event) (event : gmap string jvalue) (k : nat) : Prop :=
| produced_intro cals cal name id color timeMin timeMax items :
    calendarList_list E = Ok cals →
    cal ∈ default [] cals →
    cal !! "summary" = Some name →
    name ∈ calendar_names →
    cal !! "id" = Some id →
    cal !! "backgroundColor" = Some color →
    events_list E id timeMin timeMax = Ok items →
    event ∈ default [] items →
    GoogleCalendar.parse_event E color event k = Ok (Some ev, S k) →
    produced E calendar_names ev event k.

(** [out] is the stable ascending sort of [all_events]: the same events,
    in non-decreasing order of start, those starting at a same instant in
    the order they have in [all_events]. *)
Definition stable_sort_of (all_events out : list Event) : Prop :=
  out ≡ₚ all_events
  ∧ StronglySorted start_le out
  ∧ ∀ t, starting_at t out = starting_at t all_events.

(** "<H>h <M>m" or "<M>m" for a count of whole seconds, in integers. *)
Definition hours_minutes (s : Z) : string :=
  (if (3600 <=? s)%Z then DurationM.dec (s ÷ 3600) ++ "h " else "")
  ++ DurationM.dec ((s / 60) mod 60) ++ "m".

(** A calendar of the provider's list whose name is tracked. *)
Definition tracked (calendar_names : list string) (cal : gmap string string) : bool :=
  match cal !! "summary" with
  | Some name => bool_decide (name ∈ calendar_names)
  | None => false
  end.

(** What [token.pickle] holds after the calls of [trace], [stored] being
    what it held before, for a trace whose dumps all succeeded (a dump
    that raises leaves the file emptied by [open]). *)
Definition token_after (stored : option Credentials) (trace : list action)
    : option Credentials :=
  foldl (λ file a, match a with ADump c => Some c | _ => file end) stored trace.

(** The credentials [token.pickle] holds before [__init__] runs. *)
Definition stored_credentials {Service} (A : AuthEnv Service) : option Credentials :=
  match token_pickle A with
  | Some (Ok c) => Some c
  | _ => None
  end.

(** The record [meetings] returns when there is nothing to show. *)
Definition no_upcoming_events (E : Env) : output :=
  {| cached_until := time_in E 60; composite := None;
     full_text := Some "No upcoming events" |}.

(** * Properties *)

(** ** Arithmetic of Duration *)

Lemma append_assoc (a b c : string) : (a ++ b) ++ c = a ++ b ++ c.
Proof.
  induction a as [| x a IH]; [reflexivity |].
  change (String x ((a ++ b) ++ c) = String x (a ++ b ++ c)).
  rewrite IH. reflexivity.
Qed.

Section DurationFacts.

Import DurationM.

Lemma minutes_full_lt (d : Duration) (m : Z) :
  (minutes_full d < inject_Z m)%Q ↔ seconds d < 60 * m.
Proof. unfold minutes_full, Qlt. cbn. lia. Qed.

Lemma hours_full_lt_1 (d : Duration) : (hours_full d < 1)%Q ↔ seconds d < 3600.
Proof. unfold hours_full, minutes_full, Qlt. cbn. lia. Qed.

Lemma trunc_hours_full (d : Duration) : trunc (hours_full d) = seconds d ÷ 3600.
Proof.
  unfold trunc, hours_full, minutes_full. cbn.
  rewrite !Z.mul_1_r. reflexivity.
Qed.

Lemma trunc_minutes (d : Duration) : trunc (minutes d) = (seconds d / 60) mod 60.
Proof.
  unfold trunc, minutes, pymod. cbn.
  Z.to_euclidean_division_equations. lia.
Qed.

Lemma minutes_range (d : Duration) : (0 <= minutes d)%Q ∧ (minutes d < 60)%Q.
Proof.
  unfold minutes, pymod, Qle, Qlt. cbn.
  split; Z.to_euclidean_division_equations; lia.
Qed.

Lemma str_integer (d : Duration) :
  str d = (if (3600 <=? seconds d)%Z then dec (seconds d ÷ 3600) ++ "h " else "")
          ++ dec ((seconds d / 60) mod 60) ++ "m".
Proof.
  unfold str, fmt_d.
  rewrite trunc_minutes, trunc_hours_full.
  destruct (Qlt_le_dec (hours_full d) 1) as [Hlt | Hge].
  - apply hours_full_lt_1 in Hlt.
    destruct (Z.leb_spec 3600 (seconds d)); [lia | reflexivity].
  - destruct (Z.leb_spec 3600 (seconds d)) as [_ | Hlt]; [reflexivity |].
    apply hours_full_lt_1 in Hlt. apply Qle_not_lt in Hge. contradiction.
Qed.

End DurationFacts.

(** ** Normalisation of timedelta *)

Section TimedeltaFacts.

Import Timedelta.

Lemma make_normal (d s us : Z) : normal (make d s us).
Proof.
  unfold normal, make. cbn.
  split; Z.to_euclidean_division_equations; lia.
Qed.

(** Every normalised triple is built by the constructor. *)
Lemma normal_make (t : timedelta) :
  normal t → t = make (days t) (Timedelta.seconds t) (microseconds t).
Proof.
  destruct t as [d s us]. unfold normal, make. cbn. intros [Hs Hus].
  rewrite (Z.div_small us), (Z.mod_small us) by lia.
  rewrite Z.add_0_r, (Z.div_small s), (Z.mod_small s) by lia.
  rewrite Z.add_0_r. reflexivity.
Qed.

(** The constructor keeps the length of the span. *)
Lemma total_micros_make (d s us : Z) :
  total_micros (make d s us) = (d * 86400 + s) * 1000000 + us.
Proof.
  unfold total_micros, make. cbn.
  Z.to_euclidean_division_equations. lia.
Qed.

Lemma seconds_make (d s us : Z) :
  Timedelta.seconds (make d s us) = whole_seconds_floor (make d s us) mod 86400.
Proof.
  unfold whole_seconds_floor. rewrite total_micros_make.
  unfold make. cbn.
  Z.to_euclidean_division_equations. lia.
Qed.

Lemma seconds_of_micros (us : Z) :
  Timedelta.seconds (of_micros us) = (us / 1000000) mod 86400.
Proof. unfold of_micros, make. cbn. reflexivity. Qed.

End TimedeltaFacts.

(** What the timedelta path of [Duration.__init__] stores: the whole
    seconds of the span reduced modulo one day, which are the whole
    seconds of the span only for spans from zero up to 24 hours. *)
Lemma duration_of_timedelta_seconds (d s us : Z) :
  let t := Timedelta.make d s us in
  DurationM.init (PyTimedelta t)
    = Ok {| seconds := Timedelta.whole_seconds_floor t mod 86400 |}
  ∧ (0 <= Timedelta.total_micros t < 86400 * 1000000 →
     DurationM.init (PyTimedelta t) = Ok {| seconds := Timedelta.whole_seconds_floor t |}
     ∧ Timedelta.whole_seconds_floor t = Timedelta.whole_seconds_trunc t).
Proof.
  intros t. subst t. cbn [DurationM.init].
  rewrite seconds_make. split; [reflexivity |].
  intros Hrange. unfold Timedelta.whole_seconds_floor, Timedelta.whole_seconds_trunc.
  rewrite Z.quot_div_nonneg by lia.
  rewrite (Z.mod_small (_ / 1000000)); [split; reflexivity |].
  Z.to_euclidean_division_equations. lia.
Qed.


(** ** The monad *)

Lemma bind_Ok {A B} (m : M A) (f : A → M B) (n n' : nat) (b : B) :
  (m ≫= f) n = Ok (b, n') ↔ ∃ a k, m n = Ok (a, k) ∧ f a k = Ok (b, n').
Proof.
  unfold mbind, M_bind. destruct (m n) as [[a k] | e].
  - split; [eauto | intros (a' & k' & [= -> ->] & H); exact H].
  - split; [discriminate | intros (a' & k' & [=] & _)].
Qed.

Lemma ret_Ok {A} (a b : A) (n n' : nat) :
  (mret a : M A) n = Ok (b, n') ↔ a = b ∧ n = n'.
Proof. unfold mret, M_ret. split; [intros [= -> ->]; done | intros [-> ->]; done]. Qed.

Lemma lift_Ok {A} (r : result A) (a : A) (n n' : nat) :
  lift r n = Ok (a, n') ↔ r = Ok a ∧ n = n'.
Proof.
  unfold lift. destruct r as [a0 | e].
  - split; [intros [= -> ->]; done | intros [[= ->] ->]; done].
  - split; [discriminate | intros [[=] _]].
Qed.

Lemma getitem_Ok {V} (d : gmap string V) (key : string) (v : V) (n n' : nat) :
  getitem d key n = Ok (v, n') ↔ d !! key = Some v ∧ n = n'.
Proof.
  unfold getitem. destruct (d !! key) as [v0 |].
  - rewrite ret_Ok. split; [intros [-> ->]; done | intros [[= ->] ->]; done].
  - split; [discriminate | intros [[=] _]].
Qed.

Lemma timezone_Ok (E : Env) (zone : string) (z : tzinfo) (n n' : nat) :
  timezone E zone n = Ok (z, n') → n' = n.
Proof.
  unfold timezone. destruct (String.eqb _ _).
  - rewrite ret_Ok. intros [_ ->]. reflexivity.
  - destruct (tz_database E zone); [| discriminate].
    rewrite ret_Ok. intros [_ ->]. reflexivity.
Qed.

Lemma getmember_Ok (v : jvalue) (key s : string) (n n' : nat) :
  getmember v key n = Ok (s, n') ↔ (∃ o, v = JObj o ∧ o !! key = Some s) ∧ n = n'.
Proof.
  destruct v as [s0 | o]; cbn.
  - split; [discriminate | intros [(o & [=] & _) _]].
  - rewrite getitem_Ok. split.
    + intros [H ->]. eauto.
    + intros [(o' & [= <-] & H) ->]. done.
Qed.

Lemma fromisoformat_astimezone_Ok (E : Env) (s : string) (z : tzinfo) (d : datetime) (n n' : nat) :
  fromisoformat_astimezone E s z n = Ok (d, n')
  ↔ (∃ i, iso_instant E s = Some i ∧ d = {| instant := i; dt_tz := z |}) ∧ n = n'.
Proof.
  unfold fromisoformat_astimezone. destruct (iso_instant E s) as [i |].
  - rewrite ret_Ok. split.
    + intros [<- ->]. eauto.
    + intros [(i' & [= <-] & ->) ->]. done.
  - split; [discriminate | intros [(i' & [=] & _) _]].
Qed.

(** ** The sort *)

Section Sorting.

Import GoogleCalendar.

Lemma insert_by_start_perm (e : Event) (l : list Event) :
  insert_by_start e l ≡ₚ e :: l.
Proof.
  induction l as [| x l IH]; cbn; [reflexivity |].
  destruct (instant (start x) <? instant (start e))%Z; [| reflexivity].
  rewrite IH. apply perm_swap.
Qed.

Lemma sort_by_start_perm (l : list Event) : sort_by_start l ≡ₚ l.
Proof.
  induction l as [| e l IH]; cbn; [reflexivity |].
  rewrite insert_by_start_perm, IH. reflexivity.
Qed.

Lemma insert_by_start_sorted (e : Event) (l : list Event) :
  StronglySorted start_le l → StronglySorted start_le (insert_by_start e l).
Proof.
  induction 1 as [| x l Hl IH Hx]; cbn.
  - constructor; constructor.
  - destruct (Z.ltb_spec (instant (start x)) (instant (start e))) as [Hlt | Hge].
    + constructor; [exact IH |].
      rewrite insert_by_start_perm. constructor; [unfold start_le; lia | exact Hx].
    + constructor; [constructor; assumption |].
      constructor; [exact Hge |].
      eapply Forall_impl; [exact Hx |].
      unfold start_le. intros y Hy. cbn in Hy. lia.
Qed.

Lemma sort_by_start_sorted (l : list Event) : StronglySorted start_le (sort_by_start l).
Proof.
  induction l as [| e l IH]; cbn; [constructor |].
  apply insert_by_start_sorted, IH.
Qed.

Lemma insert_by_start_stable (t : Z) (e : Event) (l : list Event) :
  starting_at t (insert_by_start e l) = starting_at t (e :: l).
Proof.
  unfold starting_at. induction l as [| x l IH]; cbn; [reflexivity |].
  destruct (Z.ltb_spec (instant (start x)) (instant (start e))) as [Hlt | Hge];
    [| reflexivity].
  rewrite (filter_cons _ x), IH, !filter_cons.
  repeat case_decide; try reflexivity; lia.
Qed.

Lemma sort_by_start_stable (t : Z) (l : list Event) :
  starting_at t (sort_by_start l) = starting_at t l.
Proof.
  induction l as [| e l IH]; [reflexivity |].
  cbn [sort_by_start]. rewrite insert_by_start_stable. unfold starting_at in *.
  rewrite !filter_cons, IH. reflexivity.
Qed.

(** There is one sorted list only that keeps the order of the events
    starting at a same instant: whatever stable algorithm
    [list.sort] runs, it returns [sort_by_start]. *)
Lemma stable_sorted_unique (l1 l2 : list Event) :
  StronglySorted start_le l1 → StronglySorted start_le l2 →
  (∀ t, starting_at t l1 = starting_at t l2) → l1 = l2.
Proof.
  intros H1. revert l2.
  induction H1 as [| x l1 Hl1 IH Hx]; intros l2 H2 Heq.
  - destruct l2 as [| y l2]; [reflexivity |].
    specialize (Heq (instant (start y))). unfold starting_at in Heq.
    rewrite filter_cons in Heq. case_decide; [discriminate | done].
  - destruct H2 as [| y l2 Hl2 Hy].
    { specialize (Heq (instant (start x))). unfold starting_at in Heq.
      rewrite filter_cons in Heq. case_decide; [discriminate | done]. }
    assert (Hyx : instant (start y) <= instant (start x)).
    { assert (Hin : x ∈ starting_at (instant (start x)) (y :: l2)).
      { rewrite <- Heq. unfold starting_at. rewrite filter_cons.
        case_decide; [left | done]. }
      apply list_elem_of_filter in Hin as [_ Hin].
      apply elem_of_cons in Hin as [-> | Hin]; [lia |].
      rewrite Forall_forall in Hy. apply Hy, Hin. }
    assert (Hxy : instant (start x) <= instant (start y)).
    { assert (Hin : y ∈ starting_at (instant (start y)) (x :: l1)).
      { rewrite Heq. unfold starting_at. rewrite filter_cons.
        case_decide; [left | done]. }
      apply list_elem_of_filter in Hin as [_ Hin].
      apply elem_of_cons in Hin as [-> | Hin]; [lia |].
      rewrite Forall_forall in Hx. apply Hx, Hin. }
    assert (Hhead : x = y ∧ ∀ t, starting_at t l1 = starting_at t l2).
    { split.
      - specialize (Heq (instant (start x))). unfold starting_at in Heq.
        rewrite !filter_cons in Heq.
        repeat case_decide; try lia. congruence.
      - intros t. specialize (Heq t). unfold starting_at in *.
        rewrite !filter_cons in Heq.
        repeat case_decide; try lia; congruence. }
    destruct Hhead as [-> Htail]. f_equal. apply IH; assumption.
Qed.

End Sorting.

(** ** The loop of [_get_events] *)

Section Fetching.

Import GoogleCalendar.

Variable E : Env.

Lemma resolve_tz_Ok (v : jvalue) (z : tzinfo) (n n' : nat) :
  resolve_tz E v n = Ok (z, n') → n' = n.
Proof.
  unfold resolve_tz. destruct (jcontains v "timezone").
  - intros H. apply bind_Ok in H as (zone & k & Hzone & H).
    apply getmember_Ok in Hzone as [_ ->].
    exact (timezone_Ok _ _ _ _ _ H).
  - apply timezone_Ok.
Qed.

(** Without the key [timezone], in lower case, the zone is UTC, whatever
    the record holds under [timeZone]. *)
Lemma resolve_tz_without_lowercase_key (o : gmap string string) (n : nat) :
  o !! "timezone" = None → resolve_tz E (JObj o) n = Ok (UTC, n).
Proof.
  intros Hnone. unfold resolve_tz, jcontains, contains.
  rewrite Hnone, bool_decide_eq_false_2 by (intros [? [=]]).
  reflexivity.
Qed.

(** What a turn of the loop that appends [ev] has gone through. *)
Lemma parse_event_Some (cal_color : string) (event : gmap string jvalue)
    (ev : Event) (n n' : nat) :
  parse_event E cal_color event n = Ok (Some ev, n') →
  n' = S n ∧
  ∃ o start_str i o' end_str j,
    event !! "start" = Some (JObj o) ∧ o !! "date" = None
    ∧ resolve_tz E (JObj o) n = Ok (tz ev, n)
    ∧ o !! "dateTime" = Some start_str ∧ iso_instant E start_str = Some i
    ∧ start ev = {| instant := i; dt_tz := tz ev |}
    ∧ clock E n <= i
    ∧ event !! "end" = Some (JObj o') ∧ o' !! "dateTime" = Some end_str
    ∧ iso_instant E end_str = Some j
    ∧ end_ ev = {| instant := j; dt_tz := tz ev |}
    ∧ event !! "summary" = Some (summary ev)
    ∧ color ev = cal_color.
Proof.
  unfold parse_event. intros H.
  apply bind_Ok in H as (event_start & k & Hs & H).
  apply getitem_Ok in Hs as [Hs <-].
  destruct (jcontains event_start "date") eqn:Hdate.
  { apply ret_Ok in H as [[=] _]. }
  apply bind_Ok in H as (z & k & Hz & H).
  pose proof (resolve_tz_Ok _ _ _ _ Hz) as ->.
  apply bind_Ok in H as (start_str & k & Hstr & H).
  apply getmember_Ok in Hstr as [(o & -> & Ho) <-].
  apply bind_Ok in H as (sd & k & Hsd & H).
  apply fromisoformat_astimezone_Ok in Hsd as [(i & Hi & ->) <-].
  apply bind_Ok in H as (now & k & Hnow & H).
  unfold datetime_now in Hnow. injection Hnow as <- <-.
  cbn [instant] in H.
  destruct (Z.ltb_spec i (clock E n)) as [Hlt | Hge].
  { apply ret_Ok in H as [[=] _]. }
  apply bind_Ok in H as (event_end & k & He & H).
  apply getitem_Ok in He as [He <-].
  apply bind_Ok in H as (end_str & k & Hestr & H).
  apply getmember_Ok in Hestr as [(o' & -> & Ho') <-].
  apply bind_Ok in H as (ed & k & Hed & H).
  apply fromisoformat_astimezone_Ok in Hed as [(j & Hj & ->) <-].
  apply bind_Ok in H as (sm & k & Hsm & H).
  apply getitem_Ok in Hsm as [Hsm <-].
  apply ret_Ok in H as [[= <-] <-].
  split; [reflexivity |].
  exists o, start_str, i, o', end_str, j. cbn.
  unfold jcontains, contains in Hdate.
  apply bool_decide_eq_false_1 in Hdate.
  rewrite <- eq_None_not_Some in Hdate.
  repeat split; assumption.
Qed.

Lemma parse_event_ticks (color : string) (event : gmap string jvalue)
    (r : option Event) (n n' : nat) :
  parse_event E color event n = Ok (r, n') → (n ≤ n' ≤ S n)%nat.
Proof.
  destruct r as [ev |].
  { intros H. apply parse_event_Some in H as [-> _]. lia. }
  unfold parse_event. intros H.
  apply bind_Ok in H as (event_start & k & Hs & H).
  apply getitem_Ok in Hs as [Hs <-].
  destruct (jcontains event_start "date").
  { apply ret_Ok in H as [_ <-]. lia. }
  apply bind_Ok in H as (z & k & Hz & H).
  pose proof (resolve_tz_Ok _ _ _ _ Hz) as ->.
  apply bind_Ok in H as (start_str & k & Hstr & H).
  apply getmember_Ok in Hstr as [_ <-].
  apply bind_Ok in H as (sd & k & Hsd & H).
  apply fromisoformat_astimezone_Ok in Hsd as [_ <-].
  apply bind_Ok in H as (now & k & Hnow & H).
  unfold datetime_now in Hnow. injection Hnow as <- <-.
  destruct (_ <? _)%Z.
  { apply ret_Ok in H as [_ <-]. lia. }
  apply bind_Ok in H as (event_end & k & He & H).
  apply getitem_Ok in He as [_ <-].
  apply bind_Ok in H as (end_str & k & Hestr & H).
  apply getmember_Ok in Hestr as [_ <-].
  apply bind_Ok in H as (ed & k & Hed & H).
  apply fromisoformat_astimezone_Ok in Hed as [_ <-].
  apply bind_Ok in H as (sm & k & Hsm & H).
  apply getitem_Ok in Hsm as [_ <-].
  apply ret_Ok in H as [_ <-]. lia.
Qed.

(** An all-day event is skipped before the clock is read. *)
Lemma parse_event_all_day (color : string) (event : gmap string jvalue) (n : nat) :
  is_all_day event = true → parse_event E color event n = Ok (None, n).
Proof.
  unfold is_all_day, parse_event. intros H.
  destruct (event !! "start") as [[s | o] |] eqn:Hs; try discriminate.
  unfold mbind, M_bind, getitem. rewrite Hs. cbn. rewrite H. reflexivity.
Qed.

(** A timed event that started before the reading of the clock is
    skipped. *)
Lemma parse_event_started (color : string) (event : gmap string jvalue)
    (o : gmap string string) (z : tzinfo) (start_str : string) (i : Z) (n : nat) :
  event !! "start" = Some (JObj o) → o !! "date" = None →
  resolve_tz E (JObj o) n = Ok (z, n) →
  o !! "dateTime" = Some start_str → iso_instant E start_str = Some i →
  i < clock E n →
  parse_event E color event n = Ok (None, S n).
Proof.
  intros Hs Hdate Hz Hstr Hi Hlt. unfold parse_event.
  unfold mbind at 1, M_bind at 1, getitem. rewrite Hs. cbn [mret M_ret].
  unfold jcontains at 1, contains.
  rewrite Hdate, bool_decide_eq_false_2 by (intros [? [=]]).
  unfold mbind at 1, M_bind at 1. rewrite Hz.
  unfold mbind at 1, M_bind at 1, getmember, getitem. rewrite Hstr. cbn [mret M_ret].
  unfold mbind at 1, M_bind at 1, fromisoformat_astimezone. rewrite Hi. cbn [mret M_ret].
  unfold mbind at 1, M_bind at 1, datetime_now. cbn [instant].
  destruct (Z.ltb_spec i (clock E n)); [reflexivity | lia].
Qed.

(** A timed, well-formed event that has not started yet at the reading
    of the clock is appended; an event starting at that very instant is
    one of them. *)
Lemma parse_event_upcoming (color : string) (event : gmap string jvalue)
    (o o' : gmap string string) (z : tzinfo) (start_str end_str : string)
    (i j : Z) (sm : jvalue) (n : nat) :
  event !! "start" = Some (JObj o) → o !! "date" = None →
  resolve_tz E (JObj o) n = Ok (z, n) →
  o !! "dateTime" = Some start_str → iso_instant E start_str = Some i →
  clock E n <= i →
  event !! "end" = Some (JObj o') → o' !! "dateTime" = Some end_str →
  iso_instant E end_str = Some j →
  event !! "summary" = Some sm →
  parse_event E color event n
  = Ok (Some {| summary := sm; tz := z;
                start := {| instant := i; dt_tz := z |};
                end_ := {| instant := j; dt_tz := z |};
                color := color |}, S n).
Proof.
  intros Hs Hdate Hz Hstr Hi Hle He Hestr Hj Hsm. unfold parse_event.
  unfold mbind at 1, M_bind at 1, getitem at 1. rewrite Hs. cbn [mret M_ret].
  unfold jcontains at 1, contains.
  rewrite Hdate, bool_decide_eq_false_2 by (intros [? [=]]).
  unfold mbind at 1, M_bind at 1. rewrite Hz.
  unfold mbind at 1, M_bind at 1, getmember at 1, getitem at 1. rewrite Hstr. cbn [mret M_ret].
  unfold mbind at 1, M_bind at 1, fromisoformat_astimezone at 1. rewrite Hi. cbn [mret M_ret].
  unfold mbind at 1, M_bind at 1, datetime_now. cbn [instant].
  destruct (Z.ltb_spec i (clock E n)); [lia |].
  unfold mbind at 1, M_bind at 1, getitem at 1. rewrite He. cbn [mret M_ret].
  unfold mbind at 1, M_bind at 1, getmember at 1, getitem at 1. rewrite Hestr. cbn [mret M_ret].
  unfold mbind at 1, M_bind at 1, fromisoformat_astimezone at 1. rewrite Hj. cbn [mret M_ret].
  unfold mbind at 1, M_bind at 1, getitem at 1. rewrite Hsm. reflexivity.
Qed.

End Fetching.

(** ** From the provider's records to the returned events *)

Section Provenance.

Import GoogleCalendar.

Variable E : Env.

Lemma parse_events_spec (color : string) (events : list (gmap string jvalue)) :
  ∀ (acc out : list Event) (n n' : nat),
    parse_events E color events acc n = Ok (out, n') →
    (n ≤ n')%nat ∧
    ∃ new, out = (acc ++ new)%list ∧
      Forall (λ ev, ∃ event k, event ∈ events ∧ (n ≤ k < n')%nat
                    ∧ parse_event E color event k = Ok (Some ev, S k)) new.
Proof.
  induction events as [| event rest IH]; intros acc out n n' H.
  - apply ret_Ok in H as [<- <-]. split; [lia |].
    exists []. rewrite app_nil_r. split; [reflexivity | constructor].
  - cbn [parse_events] in H.
    apply bind_Ok in H as (r & k & Hr & H).
    pose proof (parse_event_ticks _ _ _ _ _ _ Hr) as Hk.
    destruct r as [ev |].
    + apply parse_event_Some in Hr as Hev. destruct Hev as [-> _].
      apply IH in H as (Hle & new & -> & Hnew).
      split; [lia |]. exists (ev :: new).
      split; [rewrite <- app_assoc; reflexivity |].
      constructor.
      * exists event, n. split; [left |]. split; [lia | exact Hr].
      * eapply Forall_impl; [exact Hnew |].
        intros ev' (event' & k' & Hin & Hb & Hp).
        exists event', k'. split; [right; exact Hin |]. split; [lia | exact Hp].
    + apply IH in H as (Hle & new & -> & Hnew).
      split; [lia |]. exists new. split; [reflexivity |].
      eapply Forall_impl; [exact Hnew |].
      intros ev' (event' & k' & Hin & Hb & Hp).
      exists event', k'. split; [right; exact Hin |]. split; [lia | exact Hp].
Qed.

Lemma _get_events_spec (calendar_id color : string) (out : list Event) (n n' : nat) :
  _get_events E calendar_id color n = Ok (out, n') →
  (n + 2 ≤ n')%nat ∧
  ∃ items,
    events_list E calendar_id (clock E n) (clock E (S n) + day_micros) = Ok items
    ∧ parse_events E color (default [] items) [] (n + 2)%nat = Ok (out, n')
    ∧ Forall (λ ev, ∃ event k, event ∈ default [] items ∧ (n + 2 ≤ k < n')%nat
                    ∧ parse_event E color event k = Ok (Some ev, S k)) out.
Proof.
  unfold _get_events. intros H.
  apply bind_Ok in H as (now & k & Hnow & H).
  unfold utcnow in Hnow. injection Hnow as <- <-.
  apply bind_Ok in H as (top & k & Htop & H).
  apply bind_Ok in Htop as (t & k' & Ht & Htop).
  unfold utcnow in Ht. injection Ht as <- <-.
  apply ret_Ok in Htop as [<- <-].
  apply bind_Ok in H as (items & k & Hitems & H).
  apply lift_Ok in Hitems as [Hitems <-].
  replace (S (S n)) with (n + 2)%nat in H by lia.
  pose proof H as Hloop.
  apply parse_events_spec in H as (Hle & new & -> & Hnew).
  split; [lia |]. exists items. split; [exact Hitems |]. split; [exact Hloop |].
  exact Hnew.
Qed.

Lemma applicable_spec (calendar_names : list string) (raw : list (gmap string string)) :
  ∀ (kept : list (gmap string string)) (n n' : nat),
    applicable calendar_names raw n = Ok (kept, n') →
    n' = n ∧
    Forall (λ cal, cal ∈ raw ∧ ∃ name, cal !! "summary" = Some name
                                        ∧ name ∈ calendar_names) kept.
Proof.
  induction raw as [| cal rest IH]; intros kept n n' H.
  - apply ret_Ok in H as [<- <-]. split; [reflexivity | constructor].
  - cbn [applicable] in H.
    apply bind_Ok in H as (name & k & Hname & H).
    apply getitem_Ok in Hname as [Hname <-].
    apply bind_Ok in H as (kept' & k & Hkept & H).
    apply IH in Hkept as [-> Hkept].
    apply ret_Ok in H as [<- <-]. split; [reflexivity |].
    assert (Hrest : Forall (λ c, c ∈ cal :: rest ∧ ∃ name0, c !! "summary" = Some name0
                                   ∧ name0 ∈ calendar_names) kept').
    { eapply Forall_impl; [exact Hkept |]. intros c [Hin Hc].
      split; [right; exact Hin | exact Hc]. }
    case_bool_decide as Hin; [| exact Hrest].
    constructor; [| exact Hrest]. split; [left | eauto].
Qed.

(** No calendar carries a tracked name: nothing is kept. *)
Lemma applicable_none (calendar_names : list string) (raw : list (gmap string string))
    (n : nat) :
  Forall (λ cal, ∃ name, cal !! "summary" = Some name ∧ name ∉ calendar_names) raw →
  applicable calendar_names raw n = Ok ([], n).
Proof.
  induction 1 as [| cal rest (name & Hname & Hnotin) _ IH]; [reflexivity |].
  cbn [applicable]. unfold mbind at 1, M_bind at 1, getitem. rewrite Hname.
  cbn [mret M_ret]. unfold mbind, M_bind. rewrite IH.
  rewrite bool_decide_eq_false_2 by exact Hnotin. reflexivity.
Qed.

Lemma collect_spec (cals : list (gmap string string)) :
  ∀ (acc out : list Event) (n n' : nat),
    collect E cals acc n = Ok (out, n') →
    (n ≤ n')%nat ∧
    ∃ new, out = (acc ++ new)%list ∧
      Forall (λ ev, ∃ cal id color timeMin timeMax items event k,
                cal ∈ cals ∧ cal !! "id" = Some id
                ∧ cal !! "backgroundColor" = Some color
                ∧ events_list E id timeMin timeMax = Ok items
                ∧ event ∈ default [] items ∧ (n ≤ k < n')%nat
                ∧ parse_event E color event k = Ok (Some ev, S k)) new.
Proof.
  induction cals as [| cal rest IH]; intros acc out n n' H.
  - apply ret_Ok in H as [<- <-]. split; [lia |].
    exists []. rewrite app_nil_r. split; [reflexivity | constructor].
  - cbn [collect] in H.
    apply bind_Ok in H as (id & k & Hid & H).
    apply getitem_Ok in Hid as [Hid <-].
    apply bind_Ok in H as (color & k & Hcolor & H).
    apply getitem_Ok in Hcolor as [Hcolor <-].
    apply bind_Ok in H as (evs & k & Hevs & H).
    apply _get_events_spec in Hevs as (Hk & items & Hitems & _ & Hevs).
    apply IH in H as (Hle & new & -> & Hnew).
    split; [lia |]. exists (evs ++ new)%list.
    split; [rewrite app_assoc; reflexivity |].
    apply Forall_app. split.
    + eapply Forall_impl; [exact Hevs |].
      intros ev (event & k' & Hin & Hb & Hp).
      exists cal, id, color, (clock E n), (clock E (S n) + day_micros), items, event, k'.
      repeat split; try assumption; try lia. left.
    + eapply Forall_impl; [exact Hnew |].
      intros ev (cal' & id' & color' & tmin & tmax & items' & event & k' &
                 Hin & Hid' & Hcolor' & Hitems' & Hevin & Hb & Hp).
      exists cal', id', color', tmin, tmax, items', event, k'.
      repeat split; try assumption; try lia. right; exact Hin.
Qed.

(** The steps of a run of [get_next_events] that returns. *)
Lemma get_next_events_Ok (calendar_names : list string) (out : list Event) (n n' : nat) :
  get_next_events E calendar_names n = Ok (out, n') →
  ∃ cals kept all_events,
    calendarList_list E = Ok cals
    ∧ applicable calendar_names (default [] cals) n = Ok (kept, n)
    ∧ collect E kept [] n = Ok (all_events, n')
    ∧ out = sort_by_start all_events.
Proof.
  unfold get_next_events. intros H.
  apply bind_Ok in H as (cals & k & Hcals & H).
  apply lift_Ok in Hcals as [Hcals <-].
  apply bind_Ok in H as (kept & k & Hkept & H).
  pose proof (applicable_spec _ _ _ _ _ Hkept) as [-> _].
  apply bind_Ok in H as (all_events & k & Hall & H).
  apply ret_Ok in H as [<- <-].
  exists cals, kept, all_events. repeat split; assumption.
Qed.

(** Every returned event was appended by a turn of the loop, from a
    record the provider sent for a tracked calendar. *)
Lemma get_next_events_produced (calendar_names : list string) (out : list Event)
    (n n' : nat) :
  get_next_events E calendar_names n = Ok (out, n') →
  ∀ ev, ev ∈ out →
    ∃ event k, (n ≤ k < n')%nat ∧ produced E calendar_names ev event k.
Proof.
  intros H ev Hev.
  apply get_next_events_Ok in H as (cals & kept & all_events & Hcals & Hkept & Hall & ->).
  rewrite sort_by_start_perm in Hev.
  apply applicable_spec in Hkept as [_ Hkept].
  apply collect_spec in Hall as (_ & new & Hnew & Hall).
  cbn in Hnew. subst new.
  rewrite Forall_forall in Hall.
  destruct (Hall ev Hev) as (cal & id & color & tmin & tmax & items & event & k &
                             Hin & Hid & Hcolor & Hitems & Hevin & Hb & Hp).
  rewrite Forall_forall in Hkept.
  destruct (Hkept cal Hin) as (Hraw & name & Hname & Hnamein).
  exists event, k. split; [exact Hb |].
  exact (produced_intro E calendar_names ev event k cals cal name id color tmin tmax
           items Hcals Hraw Hname Hnamein Hid Hcolor Hitems Hevin Hp).
Qed.

End Provenance.

(** ** All-day events are invisible *)

Section AllDay.

Import GoogleCalendar.

Variable E : Env.

Lemma parse_events_without_all_day (color : string) (events : list (gmap string jvalue)) :
  ∀ (acc : list Event) (n : nat),
    parse_events (without_all_day E) color events acc n
    = parse_events E color events acc n.
Proof.
  induction events as [| event rest IH]; intros acc n; [reflexivity |].
  cbn [parse_events]. unfold mbind, M_bind.
  change (parse_event (without_all_day E) color event n)
    with (parse_event E color event n).
  destruct (parse_event E color event n) as [[[ev |] k] | e];
    [apply IH | apply IH | reflexivity].
Qed.

Lemma parse_events_skip_all_day (color : string) (events : list (gmap string jvalue)) :
  ∀ (acc : list Event) (n : nat),
    parse_events E color (filter (λ ev, is_all_day ev = false) events) acc n
    = parse_events E color events acc n.
Proof.
  induction events as [| event rest IH]; intros acc n; [reflexivity |].
  rewrite filter_cons. case_decide as Hday.
  - cbn [parse_events]. unfold mbind, M_bind.
    destruct (parse_event E color event n) as [[[ev |] k] | e];
      [apply IH | apply IH | reflexivity].
  - apply not_false_is_true in Hday.
    cbn [parse_events]. unfold mbind, M_bind.
    rewrite (parse_event_all_day E color event n Hday). apply IH.
Qed.

Lemma _get_events_without_all_day (calendar_id color : string) (n : nat) :
  _get_events (without_all_day E) calendar_id color n = _get_events E calendar_id color n.
Proof.
  unfold _get_events, mbind, M_bind, utcnow, lift. cbn.
  destruct (events_list E calendar_id _ _) as [items | e]; [| reflexivity].
  cbn. rewrite parse_events_without_all_day. apply parse_events_skip_all_day.
Qed.

Lemma collect_without_all_day (cals : list (gmap string string)) :
  ∀ (acc : list Event) (n : nat),
    collect (without_all_day E) cals acc n = collect E cals acc n.
Proof.
  induction cals as [| cal rest IH]; intros acc n; [reflexivity |].
  cbn [collect]. unfold mbind, M_bind.
  destruct (getitem cal "id" n) as [[id k] | e]; [| reflexivity].
  destruct (getitem cal "backgroundColor" k) as [[color k'] | e]; [| reflexivity].
  rewrite _get_events_without_all_day.
  destruct (_get_events E id color k') as [[evs k''] | e]; [apply IH | reflexivity].
Qed.

Lemma get_next_events_without_all_day (calendar_names : list string) (n : nat) :
  get_next_events (without_all_day E) calendar_names n
  = get_next_events E calendar_names n.
Proof.
  unfold get_next_events, mbind, M_bind. cbn.
  destruct (lift (calendarList_list E) n) as [[cals k] | e]; [| reflexivity].
  destruct (applicable calendar_names (default [] cals) k) as [[kept k'] | e];
    [| reflexivity].
  rewrite collect_without_all_day. reflexivity.
Qed.

End AllDay.

(** * The claims about the calendar *)

(** C1 fails on a record as the provider sends it: [Sample.standup] gives
    its zone under [timeZone], pytz knows that zone, and the event
    get_next_events returns is in UTC, start and end included. *)
Theorem provider_zone_is_ignored :
  Sample.standup !! "start"
    = Some (JObj {[ "dateTime" := "2026-11-05T10:00:00-05:00";
                    "timeZone" := "America/New_York" ]})
  ∧ timezone (Sample.env Sample.ticking [Sample.standup]) "America/New_York" 0%nat
    = Ok (Zone "America/New_York", 0%nat)
  ∧ GoogleCalendar.get_next_events
      (Sample.env Sample.ticking [Sample.standup]) ["Work"] 0%nat
    = Ok ([Sample.standup_event], 3%nat)
  ∧ tz Sample.standup_event = UTC
  ∧ dt_tz (start Sample.standup_event) = UTC
  ∧ dt_tz (end_ Sample.standup_event) = UTC.
Proof. repeat split; vm_compute; reflexivity. Qed.

(** C2 as stated fails: with the clock stopped at the instant
    [Sample.sync] starts, the event is returned although its start is not
    strictly after "now". *)
Lemma event_starting_now_is_returned :
  GoogleCalendar.get_next_events
    (Sample.env Sample.frozen [Sample.sync]) ["Work"] 0%nat
  = Ok ([Sample.sync_event], 3%nat)
  ∧ clock (Sample.env Sample.frozen [Sample.sync]) 2%nat
    = instant (start Sample.sync_event)
  ∧ ¬ (clock (Sample.env Sample.frozen [Sample.sync]) 2%nat
       < instant (start Sample.sync_event)).
Proof.
  split; [vm_compute; reflexivity |].
  split; [reflexivity |]. unfold Sample.env, Sample.frozen. cbn. lia.
Qed.

(** C2, amended: an event get_next_events returns does not start before
    the "now" its turn of the loop read in the event's own zone; a timed
    event whose start is strictly before that "now" is skipped, and a
    well-formed one whose start is that "now" or later is appended, so an
    event starting exactly at "now" is kept. *)
Theorem started_events_are_excluded (E : Env) (calendar_names : list string) :
  (∀ n out n', GoogleCalendar.get_next_events E calendar_names n = Ok (out, n') →
     ∀ ev, ev ∈ out →
       ∃ event k, (n ≤ k < n')%nat ∧ produced E calendar_names ev event k
                  ∧ dt_tz (start ev) = tz ev
                  ∧ clock E k <= instant (start ev))
  ∧ (∀ color event o z start_str i n,
       event !! "start" = Some (JObj o) → o !! "date" = None →
       GoogleCalendar.resolve_tz E (JObj o) n = Ok (z, n) →
       o !! "dateTime" = Some start_str → iso_instant E start_str = Some i →
       i < clock E n →
       GoogleCalendar.parse_event E color event n = Ok (None, S n))
  ∧ (∀ color event o o' z start_str end_str i j sm n,
       event !! "start" = Some (JObj o) → o !! "date" = None →
       GoogleCalendar.resolve_tz E (JObj o) n = Ok (z, n) →
       o !! "dateTime" = Some start_str → iso_instant E start_str = Some i →
       clock E n <= i →
       event !! "end" = Some (JObj o') → o' !! "dateTime" = Some end_str →
       iso_instant E end_str = Some j →
       event !! "summary" = Some sm →
       GoogleCalendar.parse_event E color event n
       = Ok (Some {| summary := sm; tz := z;
                     start := {| instant := i; dt_tz := z |};
                     end_ := {| instant := j; dt_tz := z |};
                     color := color |}, S n)).
Proof.
  split; [| split].
  - intros n out n' H ev Hev.
    destruct (get_next_events_produced E _ _ _ _ H ev Hev) as (event & k & Hb & Hp).
    exists event, k. split; [exact Hb |]. split; [exact Hp |].
    destruct Hp as [cals cal name id color tmin tmax items _ _ _ _ _ _ _ _ Hparse].
    apply parse_event_Some in Hparse
      as (_ & o & start_str & i & o' & end_str & j & _ & _ & _ & _ & _ & Hstart & Hle & _).
    rewrite Hstart. cbn. split; [reflexivity | exact Hle].
  - intros color event o z start_str i n. apply parse_event_started.
  - intros color event o o' z start_str end_str i j sm n. apply parse_event_upcoming.
Qed.

Lemma started_events_are_excluded_witness :
  (∃ event k, (0 ≤ k < 6)%nat
     ∧ produced (Sample.env Sample.ticking [Sample.standup]) ["Work"; "Life"]
         Sample.standup_event event k
     ∧ dt_tz (start Sample.standup_event) = tz Sample.standup_event
     ∧ clock (Sample.env Sample.ticking [Sample.standup]) k
       <= instant (start Sample.standup_event))
  ∧ GoogleCalendar.parse_event (Sample.env Sample.ticking [Sample.sync]) "#111"
      Sample.sync 2%nat = Ok (None, 3%nat)
  ∧ GoogleCalendar.parse_event (Sample.env Sample.frozen [Sample.sync]) "#111"
      Sample.sync 2%nat = Ok (Some Sample.sync_event, 3%nat).
Proof.
  split; [| split].
  - apply (proj1 (started_events_are_excluded
                    (Sample.env Sample.ticking [Sample.standup]) ["Work"; "Life"])
             0%nat [Sample.standup_event; Sample.lunch_event "#222"] 6%nat).
    + vm_compute. reflexivity.
    + left.
  - apply (proj1 (proj2 (started_events_are_excluded
                           (Sample.env Sample.ticking [Sample.sync]) []))
             "#111" Sample.sync {[ "dateTime" := "2026-11-05T14:50:00+00:00" ]}
             UTC "2026-11-05T14:50:00+00:00" Sample.t0 2%nat);
      vm_compute; reflexivity.
  - apply (proj2 (proj2 (started_events_are_excluded
                           (Sample.env Sample.frozen [Sample.sync]) []))
             "#111" Sample.sync {[ "dateTime" := "2026-11-05T14:50:00+00:00" ]}
             {[ "dateTime" := "2026-11-05T10:00:00-05:00" ]}
             UTC "2026-11-05T14:50:00+00:00" "2026-11-05T10:00:00-05:00"
             Sample.t0 (Sample.t0 + 10 * Sample.minute) (JStr "Sync") 2%nat);
      try (vm_compute; reflexivity).
    vm_compute. intros Hc. discriminate Hc.
Defined.

(** C7: when get_next_events returns a non-empty sequence, meetings takes
    its first event, which no other one precedes in time, and returns a
    composite of two segments: the text "In <time_until> " colored by
    get_duration_color of that time_until, then the event's title in
    the color of its calendar. *)
Theorem meetings_first_event (E : Env) (calendar_names : list string)
    (n k : nat) (next_event : Event) (rest : list Event) :
  GoogleCalendar.get_next_events E calendar_names n = Ok (next_event :: rest, k) →
  ∃ time_until,
    EventM.time_until E next_event k = Ok (time_until, S k)
    ∧ Py3status.meetings E calendar_names n
      = Ok ({| cached_until := time_in E 60;
               composite := Some
                 [ {| seg_full_text := JStr ("In " ++ DurationM.str time_until ++ " ");
                      seg_color := get_duration_color time_until |};
                   {| seg_full_text := summary next_event;
                      seg_color := Some (color next_event) |} ];
               full_text := None |}, S k)
    ∧ Forall (start_le next_event) rest.
Proof.
  intros H.
  exists {| seconds := Timedelta.seconds
              (datetime_sub (start next_event)
                 {| instant := clock E k; dt_tz := tz next_event |}) |}.
  split; [reflexivity |]. split.
  - unfold Py3status.meetings, mbind at 1, M_bind at 1. rewrite H. reflexivity.
  - apply get_next_events_Ok in H as (cals & kept & all_events & _ & _ & _ & Hsort).
    pose proof (sort_by_start_sorted all_events) as Hsorted.
    rewrite <- Hsort in Hsorted.
    apply StronglySorted_inv in Hsorted as [_ Hall]. exact Hall.
Qed.

Lemma meetings_first_event_witness :
  Py3status.meetings (Sample.env Sample.ticking [Sample.holiday; Sample.standup])
    ["Work"; "Life"] 0%nat
  = Ok ({| cached_until := 1793890260;
           composite := Some
             [ {| seg_full_text := JStr "In 9m "; seg_color := Some "#FF0000" |};
               {| seg_full_text := JStr "Standup"; seg_color := Some "#111" |} ];
           full_text := None |}, 7%nat).
Proof.
  destruct (meetings_first_event
              (Sample.env Sample.ticking [Sample.holiday; Sample.standup])
              ["Work"; "Life"] 0%nat 6%nat
              Sample.standup_event [Sample.lunch_event "#222"])
    as (time_until & Htime & Hmeetings & _).
  - vm_compute. reflexivity.
  - rewrite Hmeetings. injection Htime as <-. vm_compute. reflexivity.
Defined.

(** C8: when get_next_events returns the empty sequence, meetings returns
    the plain text "No upcoming events"; this is the case when no
    calendar of the provider carries a tracked name, and so when no name
    is tracked at all. *)
Theorem meetings_no_upcoming_events (E : Env) (calendar_names : list string) (n : nat) :
  (∀ k, GoogleCalendar.get_next_events E calendar_names n = Ok ([], k) →
        Py3status.meetings E calendar_names n = Ok (no_upcoming_events E, k))
  ∧ (∀ cals, calendarList_list E = Ok cals →
       Forall (λ cal, ∃ name, cal !! "summary" = Some name ∧ name ∉ calendar_names)
              (default [] cals) →
       GoogleCalendar.get_next_events E calendar_names n = Ok ([], n)
       ∧ Py3status.meetings E calendar_names n = Ok (no_upcoming_events E, n))
  ∧ (∀ cals, calendarList_list E = Ok cals →
       Forall (λ cal, is_Some (cal !! "summary")) (default [] cals) →
       GoogleCalendar.get_next_events E [] n = Ok ([], n)
       ∧ Py3status.meetings E [] n = Ok (no_upcoming_events E, n)).
Proof.
  assert (Hempty : ∀ names k,
            GoogleCalendar.get_next_events E names n = Ok ([], k) →
            Py3status.meetings E names n = Ok (no_upcoming_events E, k)).
  { intros names k H. unfold Py3status.meetings, mbind, M_bind. rewrite H. reflexivity. }
  assert (Hnone : ∀ names cals, calendarList_list E = Ok cals →
            Forall (λ cal, ∃ name, cal !! "summary" = Some name ∧ name ∉ names)
                   (default [] cals) →
            GoogleCalendar.get_next_events E names n = Ok ([], n)).
  { intros names cals Hcals Hall.
    unfold GoogleCalendar.get_next_events, mbind, M_bind, lift. rewrite Hcals.
    rewrite (applicable_none names _ n Hall). reflexivity. }
  split; [apply Hempty |]. split.
  - intros cals Hcals Hall. split; [eapply Hnone; eassumption |].
    apply Hempty. eapply Hnone; eassumption.
  - intros cals Hcals Hall.
    assert (Hall' : Forall (λ cal : gmap string string,
                              ∃ name, cal !! "summary" = Some name ∧ name ∉ @nil string)
                           (default [] cals)).
    { eapply Forall_impl; [exact Hall |]. intros cal [name Hname].
      exists name. split; [exact Hname | apply not_elem_of_nil]. }
    split; [eapply Hnone; eassumption |].
    apply Hempty. eapply Hnone; eassumption.
Qed.

Lemma meetings_no_upcoming_events_witness :
  Py3status.meetings (Sample.env Sample.ticking [Sample.standup]) ["Family"] 0%nat
  = Ok ({| cached_until := 1793890260; composite := None;
           full_text := Some "No upcoming events" |}, 0%nat)
  ∧ Py3status.meetings (Sample.env Sample.ticking [Sample.standup]) [] 0%nat
    = Ok ({| cached_until := 1793890260; composite := None;
             full_text := Some "No upcoming events" |}, 0%nat)
  ∧ Py3status.meetings (Sample.env Sample.ticking [Sample.holiday]) ["Work"] 0%nat
    = Ok ({| cached_until := 1793890260; composite := None;
             full_text := Some "No upcoming events" |}, 2%nat).
Proof.
  split; [| split].
  - apply (proj1 (proj2 (meetings_no_upcoming_events
                           (Sample.env Sample.ticking [Sample.standup]) ["Family"] 0%nat))
             (Some [Sample.life; Sample.work])); [reflexivity |].
    repeat constructor.
    + exists "Life". split; [reflexivity |]. vm_compute. intros Hin.
      apply list_elem_of_singleton in Hin. discriminate Hin.
    + exists "Work". split; [reflexivity |]. vm_compute. intros Hin.
      apply list_elem_of_singleton in Hin. discriminate Hin.
  - apply (proj2 (proj2 (meetings_no_upcoming_events
                           (Sample.env Sample.ticking [Sample.standup]) [] 0%nat))
             (Some [Sample.life; Sample.work])); [reflexivity |].
    repeat constructor; eexists; reflexivity.
  - apply (proj1 (meetings_no_upcoming_events
                    (Sample.env Sample.ticking [Sample.holiday]) ["Work"] 0%nat)).
    vm_compute. reflexivity.
Defined.

(** C9: no all-day event is among the events get_next_events returns:
    each returned event comes from a provider record that is not an
    all-day event, the loop never turns an all-day record into an event,
    and the run is the same as if the provider had withheld every all-day
    event. *)
Theorem all_day_events_never_returned (E : Env) (calendar_names : list string) :
  (∀ n out n', GoogleCalendar.get_next_events E calendar_names n = Ok (out, n') →
     ∀ ev, ev ∈ out →
       ∃ event k, produced E calendar_names ev event k ∧ is_all_day event = false)
  ∧ (∀ color event n, is_all_day event = true →
       GoogleCalendar.parse_event E color event n = Ok (None, n))
  ∧ (∀ n, GoogleCalendar.get_next_events (without_all_day E) calendar_names n
          = GoogleCalendar.get_next_events E calendar_names n).
Proof.
  split; [| split].
  - intros n out n' H ev Hev.
    destruct (get_next_events_produced E _ _ _ _ H ev Hev) as (event & k & _ & Hp).
    exists event, k. split; [exact Hp |].
    destruct Hp as [cals cal name id color tmin tmax items _ _ _ _ _ _ _ _ Hparse].
    destruct (is_all_day event) eqn:Hday; [| reflexivity].
    rewrite (parse_event_all_day E color event k Hday) in Hparse. discriminate Hparse.
  - intros color event n. apply parse_event_all_day.
  - apply get_next_events_without_all_day.
Qed.

Lemma all_day_events_never_returned_witness :
  (∃ event k,
     produced (Sample.env Sample.ticking [Sample.holiday; Sample.standup]) ["Work"]
       Sample.standup_event event k
     ∧ is_all_day event = false)
  ∧ GoogleCalendar.parse_event (Sample.env Sample.ticking [Sample.holiday; Sample.standup])
      "#111" Sample.holiday 2%nat = Ok (None, 2%nat).
Proof.
  split.
  - apply (proj1 (all_day_events_never_returned
                    (Sample.env Sample.ticking [Sample.holiday; Sample.standup]) ["Work"])
             0%nat [Sample.standup_event] 3%nat).
    + vm_compute. reflexivity.
    + left.
  - apply (proj1 (proj2 (all_day_events_never_returned
                           (Sample.env Sample.ticking [Sample.holiday; Sample.standup])
                           ["Work"]))).
    vm_compute. reflexivity.
Defined.

(** C10: Duration built from any span holds a second count from 0
    included to 86400 excluded; so does the Duration of time_until, also
    when "now" is past the event's start: it then holds the span's
    remainder within one day. *)
Theorem duration_of_timedelta_range :
  (∀ d s us, ∃ dur,
     DurationM.init (PyTimedelta (Timedelta.make d s us)) = Ok dur
     ∧ 0 <= seconds dur < 86400)
  ∧ (∀ (E : Env) (ev : Event) (n : nat), ∃ dur,
       EventM.time_until E ev n = Ok (dur, S n)
       ∧ 0 <= seconds dur < 86400
       ∧ seconds dur = ((instant (start ev) - clock E n) / 1000000) mod 86400)
  ∧ EventM.time_until (Sample.env Sample.ticking []) Sample.sync_event 1%nat
    = Ok ({| seconds := 86399 |}, 2%nat).
Proof.
  split; [| split].
  - intros d s us. eexists. split; [reflexivity |].
    cbn [seconds]. apply make_normal.
  - intros E ev n. eexists. split; [reflexivity |].
    cbn [seconds]. split.
    + apply make_normal.
    + apply seconds_of_micros.
  - vm_compute. reflexivity.
Qed.

(** * Further properties of the module *)

(** ** Duration and Event *)

Lemma get_duration_color_seconds (d : Duration) :
  get_duration_color d
  = if (seconds d <? 1200)%Z then Some "#FF0000"
    else if (seconds d <? 7200)%Z then Some "#FFFF00" else None.
Proof.
  unfold get_duration_color.
  destruct (Qlt_le_dec (DurationM.minutes_full d) 20) as [H20 | H20].
  - apply (minutes_full_lt d 20) in H20.
    destruct (Z.ltb_spec (seconds d) 1200); [reflexivity | lia].
  - apply Qle_not_lt in H20. rewrite (minutes_full_lt d 20) in H20.
    destruct (Z.ltb_spec (seconds d) 1200); [lia |].
    destruct (Qlt_le_dec (DurationM.minutes_full d) 120) as [H120 | H120].
    + apply (minutes_full_lt d 120) in H120.
      destruct (Z.ltb_spec (seconds d) 7200); [reflexivity | lia].
    + apply Qle_not_lt in H120. rewrite (minutes_full_lt d 120) in H120.
      destruct (Z.ltb_spec (seconds d) 7200); [lia | reflexivity].
Qed.

Lemma str_hours_minutes (d : Duration) : DurationM.str d = hours_minutes (seconds d).
Proof. apply str_integer. Qed.

(** X1: Duration built from the span of n seconds and Duration built from
    the integer n are the same exactly when n is a second count of one
    day, 0 <= n < 86400. *)
Theorem duration_int_timedelta_agree (n : Z) :
  DurationM.init (PyTimedelta (Timedelta.make 0 n 0)) = DurationM.init (PyInt n)
  ↔ 0 <= n < 86400.
Proof.
  cbn. rewrite Z.add_0_r. split.
  - intros [= H]. rewrite <- H. apply Z.mod_pos_bound. lia.
  - intros H. rewrite Z.mod_small by exact H. reflexivity.
Qed.

Lemma time_until_seconds (E : Env) (ev : Event) (n : nat) :
  EventM.time_until E ev n
  = Ok ({| seconds := ((instant (start ev) - clock E n) / 1000000) mod 86400 |}, S n).
Proof.
  unfold EventM.time_until, mbind, M_bind, datetime_now, lift, datetime_sub.
  cbn [DurationM.init instant]. rewrite seconds_of_micros. reflexivity.
Qed.

(** X3: for an event that starts within the next 24 hours, time_until
    holds the whole seconds left, and its color is the urgent one exactly
    when less than 20 minutes are left, the soon one exactly from 20
    minutes up to 2 hours; such an event is printed as hours and minutes
    of the seconds left. *)
Theorem time_until_upcoming (E : Env) (ev : Event) (n : nat) :
  0 <= instant (start ev) - clock E n < 86400 * 1000000 →
  ∃ dur,
    EventM.time_until E ev n = Ok (dur, S n)
    ∧ seconds dur = (instant (start ev) - clock E n) / 1000000
    ∧ (get_duration_color dur = Some "#FF0000"
       ↔ instant (start ev) - clock E n < 20 * 60 * 1000000)
    ∧ (get_duration_color dur = Some "#FFFF00"
       ↔ 20 * 60 * 1000000 <= instant (start ev) - clock E n < 120 * 60 * 1000000)
    ∧ DurationM.str dur = hours_minutes ((instant (start ev) - clock E n) / 1000000).
Proof.
  intros Hrange. eexists. split; [apply time_until_seconds |].
  cbn [seconds].
  assert (Hs : ((instant (start ev) - clock E n) / 1000000) mod 86400
               = (instant (start ev) - clock E n) / 1000000).
  { apply Z.mod_small. Z.to_euclidean_division_equations. lia. }
  split; [exact Hs |].
  rewrite !get_duration_color_seconds, str_hours_minutes. cbn [seconds].
  rewrite Hs.
  split; [| split; [| reflexivity]].
  - destruct (Z.ltb_spec ((instant (start ev) - clock E n) / 1000000) 1200);
      [| destruct (Z.ltb_spec ((instant (start ev) - clock E n) / 1000000) 7200)];
      (split; [intros Hc; try discriminate Hc | intros Hc; try reflexivity]);
      Z.to_euclidean_division_equations; lia.
  - destruct (Z.ltb_spec ((instant (start ev) - clock E n) / 1000000) 1200);
      [| destruct (Z.ltb_spec ((instant (start ev) - clock E n) / 1000000) 7200)];
      (split; [intros Hc; try discriminate Hc | intros Hc; try reflexivity]);
      Z.to_euclidean_division_equations; lia.
Qed.

Lemma time_until_upcoming_witness :
  ∃ dur,
    EventM.time_until (Sample.env Sample.ticking []) Sample.standup_event 6%nat
    = Ok (dur, 7%nat)
    ∧ seconds dur = 594.
Proof.
  destruct (time_until_upcoming (Sample.env Sample.ticking []) Sample.standup_event 6%nat)
    as (dur & Hrun & Hsec & _).
  - vm_compute. split; [intros Hc; discriminate Hc | reflexivity].
  - exists dur. split; [exact Hrun |]. rewrite Hsec. vm_compute. reflexivity.
Defined.

(** X4: for an event that started up to 22 hours ago, time_until does not
    go negative: it holds at least two hours, so the event gets no color
    at all, neither urgent nor soon. *)
Theorem time_until_started (E : Env) (ev : Event) (n : nat) :
  0 < clock E n - instant (start ev) <= 22 * 3600 * 1000000 →
  ∃ dur,
    EventM.time_until E ev n = Ok (dur, S n)
    ∧ 7200 <= seconds dur < 86400
    ∧ get_duration_color dur = None.
Proof.
  intros Hrange. eexists. split; [apply time_until_seconds |].
  assert (Hs : 7200 <= ((instant (start ev) - clock E n) / 1000000) mod 86400 < 86400).
  { Z.to_euclidean_division_equations. lia. }
  rewrite get_duration_color_seconds. cbn [seconds]. split; [exact Hs |].
  destruct (Z.ltb_spec (((instant (start ev) - clock E n) / 1000000) mod 86400) 1200);
    [lia |].
  destruct (Z.ltb_spec (((instant (start ev) - clock E n) / 1000000) mod 86400) 7200);
    [lia | reflexivity].
Qed.

Lemma time_until_started_witness :
  ∃ dur,
    EventM.time_until (Sample.env Sample.ticking []) Sample.sync_event 1%nat
    = Ok (dur, 2%nat)
    ∧ 7200 <= seconds dur < 86400
    ∧ get_duration_color dur = None.
Proof.
  apply (time_until_started (Sample.env Sample.ticking []) Sample.sync_event 1%nat).
  vm_compute. split; [reflexivity | intros Hc; discriminate Hc].
Defined.

(** X5: to_string_next never raises and returns "<gap> > <title> (<length>)",
    gap and length being the whole seconds from the preceding end to the
    start and from the start to the end, each reduced modulo one day and
    printed as hours and minutes; when both spans are from zero up to 24
    hours, nothing is reduced. *)
Theorem to_string_next_text (dict_str : gmap string string → string)
    (self precedingEvent : Event) :
  EventM.to_string_next dict_str self precedingEvent
  = Ok (hours_minutes
          (((instant (start self) - instant (end_ precedingEvent)) / 1000000) mod 86400)
        ++ " > " ++ EventM.py_str dict_str (summary self) ++ " ("
        ++ hours_minutes
             (((instant (end_ self) - instant (start self)) / 1000000) mod 86400)
        ++ ")")
  ∧ (0 <= instant (start self) - instant (end_ precedingEvent) < 86400 * 1000000 →
     0 <= instant (end_ self) - instant (start self) < 86400 * 1000000 →
     EventM.to_string_next dict_str self precedingEvent
     = Ok (hours_minutes
             ((instant (start self) - instant (end_ precedingEvent)) / 1000000)
           ++ " > " ++ EventM.py_str dict_str (summary self) ++ " ("
           ++ hours_minutes ((instant (end_ self) - instant (start self)) / 1000000)
           ++ ")")).
Proof.
  assert (Hgen : EventM.to_string_next dict_str self precedingEvent
    = Ok (hours_minutes
            (((instant (start self) - instant (end_ precedingEvent)) / 1000000) mod 86400)
          ++ " > " ++ EventM.py_str dict_str (summary self) ++ " ("
          ++ hours_minutes
               (((instant (end_ self) - instant (start self)) / 1000000) mod 86400)
          ++ ")")).
  { unfold EventM.to_string_next. cbn [DurationM.init].
    rewrite !str_hours_minutes. cbn [seconds].
    unfold datetime_sub. rewrite !seconds_of_micros. reflexivity. }
  split; [exact Hgen |].
  intros Hgap Hlen. rewrite Hgen.
  rewrite (Z.mod_small ((instant (start self) - instant (end_ precedingEvent)) / 1000000))
    by (Z.to_euclidean_division_equations; lia).
  rewrite (Z.mod_small ((instant (end_ self) - instant (start self)) / 1000000))
    by (Z.to_euclidean_division_equations; lia).
  reflexivity.
Qed.

Lemma to_string_next_text_witness :
  EventM.to_string_next (λ _, "{}") (Sample.lunch_event "#222") Sample.standup_event
  = Ok "50m > Lunch (40m)".
Proof.
  destruct (to_string_next_text (λ _, "{}") (Sample.lunch_event "#222")
              Sample.standup_event) as [_ H].
  rewrite H.
  - vm_compute. reflexivity.
  - vm_compute. split; [intros Hc; discriminate Hc | reflexivity].
  - vm_compute. split; [intros Hc; discriminate Hc | reflexivity].
Defined.

(** ** Which calendars are fetched *)

Section Calendars.

Import GoogleCalendar.

Variable E : Env.

Lemma applicable_ext (names1 names2 : list string) (raw : list (gmap string string)) :
  (∀ x, x ∈ names1 ↔ x ∈ names2) →
  ∀ n, applicable names1 raw n = applicable names2 raw n.
Proof.
  intros Hsame. induction raw as [| cal rest IH]; intros n; [reflexivity |].
  cbn [applicable]. unfold mbind, M_bind.
  destruct (getitem cal "summary" n) as [[name k] | e]; [| reflexivity].
  rewrite IH. destruct (applicable names2 rest k) as [[kept k'] | e]; [| reflexivity].
  unfold mret, M_ret. rewrite (bool_decide_ext _ _ (Hsame name)). reflexivity.
Qed.

Lemma applicable_filter (calendar_names : list string) (raw : list (gmap string string))
    (n : nat) :
  Forall (λ cal, is_Some (cal !! "summary")) raw →
  applicable calendar_names raw n
  = Ok (filter (λ cal, tracked calendar_names cal = true) raw, n).
Proof.
  induction 1 as [| cal rest [name Hname] _ IH]; [reflexivity |].
  cbn [applicable]. unfold mbind at 1, M_bind at 1, getitem. rewrite Hname.
  cbn [mret M_ret]. unfold mbind, M_bind. rewrite IH.
  assert (Htr : tracked calendar_names cal = bool_decide (name ∈ calendar_names)).
  { unfold tracked. rewrite Hname. reflexivity. }
  rewrite filter_cons.
  destruct (decide (tracked calendar_names cal = true)) as [Hdec | Hdec];
    rewrite Htr in Hdec.
  - rewrite Hdec. reflexivity.
  - apply not_true_is_false in Hdec. rewrite Hdec. reflexivity.
Qed.

Lemma applicable_missing (calendar_names : list string) (raw : list (gmap string string))
    (n : nat) :
  ¬ Forall (λ cal, is_Some (cal !! "summary")) raw →
  applicable calendar_names raw n = Raise (KeyError "summary").
Proof.
  induction raw as [| cal rest IH]; intros Hnot.
  - exfalso. apply Hnot. constructor.
  - cbn [applicable]. unfold mbind at 1, M_bind at 1, getitem.
    destruct (cal !! "summary") as [name |] eqn:Hname; [| reflexivity].
    cbn [mret M_ret]. unfold mbind, M_bind. rewrite IH; [reflexivity |].
    intros Hrest. apply Hnot. constructor; [eauto | exact Hrest].
Qed.

Lemma applicable_Ok_filter (calendar_names : list string)
    (raw kept : list (gmap string string)) (n n' : nat) :
  applicable calendar_names raw n = Ok (kept, n') →
  kept = filter (λ cal, tracked calendar_names cal = true) raw.
Proof.
  intros H.
  destruct (decide (Forall (λ cal : gmap string string, is_Some (cal !! "summary")) raw))
    as [Hall | Hnot].
  - rewrite (applicable_filter _ _ _ Hall) in H. injection H as <- _. reflexivity.
  - rewrite (applicable_missing _ _ _ Hnot) in H. discriminate H.
Qed.

Lemma collect_all_fetched (cals : list (gmap string string)) :
  ∀ (acc out : list Event) (n n' : nat),
    collect E cals acc n = Ok (out, n') →
    ∀ cal, cal ∈ cals →
      ∃ id color k items,
        cal !! "id" = Some id ∧ cal !! "backgroundColor" = Some color
        ∧ (n ≤ k < n')%nat
        ∧ events_list E id (clock E k) (clock E (S k) + day_micros) = Ok items.
Proof.
  induction cals as [| cal0 rest IH]; intros acc out n n' H cal Hin.
  - apply elem_of_nil in Hin. destruct Hin.
  - cbn [collect] in H.
    apply bind_Ok in H as (id & k & Hid & H).
    apply getitem_Ok in Hid as [Hid <-].
    apply bind_Ok in H as (color & k & Hcolor & H).
    apply getitem_Ok in Hcolor as [Hcolor <-].
    apply bind_Ok in H as (evs & k & Hevs & H).
    apply _get_events_spec in Hevs as (Hk & items & Hitems & _ & _).
    pose proof (collect_spec E _ _ _ _ _ H) as [Hle _].
    apply elem_of_cons in Hin as [-> | Hin].
    + exists id, color, n, items. repeat split; try assumption; lia.
    + destruct (IH _ _ _ _ H cal Hin) as (id' & color' & k' & items' & ? & ? & ? & ?).
      exists id', color', k', items'. repeat split; try assumption; lia.
Qed.

End Calendars.

(** X6: the tracked names act as a set: two lists with the same members,
    in any order and with any repetition, give the same run of
    get_next_events and of meetings. *)
Theorem tracked_names_are_a_set (E : Env) (names1 names2 : list string) (n : nat) :
  (∀ x, x ∈ names1 ↔ x ∈ names2) →
  GoogleCalendar.get_next_events E names1 n = GoogleCalendar.get_next_events E names2 n
  ∧ Py3status.meetings E names1 n = Py3status.meetings E names2 n.
Proof.
  intros Hsame.
  assert (Hget : GoogleCalendar.get_next_events E names1 n
                 = GoogleCalendar.get_next_events E names2 n).
  { unfold GoogleCalendar.get_next_events, mbind, M_bind.
    destruct (lift (calendarList_list E) n) as [[cals k] | e]; [| reflexivity].
    rewrite (applicable_ext names1 names2 _ Hsame). reflexivity. }
  split; [exact Hget |].
  unfold Py3status.meetings, mbind, M_bind. rewrite Hget. reflexivity.
Qed.

Lemma tracked_names_are_a_set_witness :
  Py3status.meetings (Sample.env Sample.ticking [Sample.standup]) ["Work"; "Life"] 0%nat
  = Py3status.meetings (Sample.env Sample.ticking [Sample.standup])
      ["Life"; "Work"; "Work"] 0%nat.
Proof.
  apply (tracked_names_are_a_set (Sample.env Sample.ticking [Sample.standup])
           ["Work"; "Life"] ["Life"; "Work"; "Work"] 0%nat).
  intros x. rewrite !elem_of_cons, !elem_of_nil. tauto.
Defined.

(** X7: when every calendar of the provider's list has a summary,
    get_next_events fetches exactly the calendars whose summary is a
    tracked name, in the order of the provider's list, and returns the
    sorted events of these. *)
Theorem get_next_events_fetches_tracked (E : Env) (calendar_names : list string)
    (n : nat) (cals : option (list (gmap string string))) :
  calendarList_list E = Ok cals →
  Forall (λ cal, is_Some (cal !! "summary")) (default [] cals) →
  GoogleCalendar.get_next_events E calendar_names n
  = match GoogleCalendar.collect E
            (filter (λ cal, tracked calendar_names cal = true) (default [] cals)) [] n with
    | Ok (all_events, n') => Ok (GoogleCalendar.sort_by_start all_events, n')
    | Raise e => Raise e
    end.
Proof.
  intros Hcals Hall.
  unfold GoogleCalendar.get_next_events, mbind, M_bind, lift. rewrite Hcals.
  rewrite (applicable_filter calendar_names _ n Hall).
  destruct (GoogleCalendar.collect _ _ _ _) as [[all_events n'] | e]; reflexivity.
Qed.

Lemma get_next_events_fetches_tracked_witness :
  GoogleCalendar.get_next_events (Sample.env Sample.ticking [Sample.standup]) ["Work"] 0%nat
  = match GoogleCalendar.collect (Sample.env Sample.ticking [Sample.standup])
            (filter (λ cal, tracked ["Work"] cal = true) [Sample.life; Sample.work])
            [] 0%nat with
    | Ok (all_events, n') => Ok (GoogleCalendar.sort_by_start all_events, n')
    | Raise e => Raise e
    end.
Proof.
  apply (get_next_events_fetches_tracked (Sample.env Sample.ticking [Sample.standup])
           ["Work"] 0%nat (Some [Sample.life; Sample.work])); [reflexivity |].
  repeat constructor; eexists; reflexivity.
Defined.

(** X8: a calendar without a summary in the provider's list makes
    get_next_events, and so meetings, raise KeyError('summary'), whatever
    the tracked names, the empty list included. *)
Theorem calendar_without_summary_raises (E : Env) (calendar_names : list string)
    (n : nat) (cals : option (list (gmap string string))) (cal : gmap string string) :
  calendarList_list E = Ok cals →
  cal ∈ default [] cals →
  cal !! "summary" = None →
  GoogleCalendar.get_next_events E calendar_names n = Raise (KeyError "summary")
  ∧ Py3status.meetings E calendar_names n = Raise (KeyError "summary").
Proof.
  intros Hcals Hin Hnone.
  assert (Hget : GoogleCalendar.get_next_events E calendar_names n
                 = Raise (KeyError "summary")).
  { unfold GoogleCalendar.get_next_events, mbind, M_bind, lift. rewrite Hcals.
    rewrite applicable_missing; [reflexivity |].
    intros Hall. rewrite Forall_forall in Hall.
    destruct (Hall cal Hin) as [name Hname]. congruence. }
  split; [exact Hget |].
  unfold Py3status.meetings, mbind, M_bind. rewrite Hget. reflexivity.
Qed.

Lemma calendar_without_summary_raises_witness :
  Py3status.meetings
    {| clock := Sample.ticking; tz_database := Sample.zones; iso_instant := Sample.iso;
       calendarList_list := Ok (Some [Sample.work; {[ "id" := "x" ]}]);
       events_list := λ _ _ _, Ok None;
       time_in := λ s, s |} [] 0%nat
  = Raise (KeyError "summary").
Proof.
  apply (calendar_without_summary_raises _ [] 0%nat
           (Some [Sample.work; {[ "id" := "x" ]}]) {[ "id" := "x" ]}).
  - reflexivity.
  - right. left.
  - vm_compute. reflexivity.
Defined.

(** X9: every event get_next_events returns has its start and its end in
    its own zone, carries the backgroundColor of a tracked calendar of
    the provider's list, and has the summary of a record the provider
    sent for that calendar. *)
Theorem returned_event_is_tagged (E : Env) (calendar_names : list string)
    (n n' : nat) (out : list Event) (ev : Event) :
  GoogleCalendar.get_next_events E calendar_names n = Ok (out, n') →
  ev ∈ out →
  dt_tz (start ev) = tz ev
  ∧ dt_tz (end_ ev) = tz ev
  ∧ ∃ cals cal id timeMin timeMax items event,
      calendarList_list E = Ok cals ∧ cal ∈ default [] cals
      ∧ tracked calendar_names cal = true
      ∧ cal !! "backgroundColor" = Some (color ev)
      ∧ cal !! "id" = Some id
      ∧ events_list E id timeMin timeMax = Ok items
      ∧ event ∈ default [] items
      ∧ event !! "summary" = Some (summary ev).
Proof.
  intros H Hev.
  destruct (get_next_events_produced E _ _ _ _ H ev Hev) as (event & k & _ & Hp).
  destruct Hp as [cals cal name id col tmin tmax items
                    Hcals Hin Hname Hnamein Hid Hcol Hitems Hevin Hparse].
  apply parse_event_Some in Hparse
    as (_ & o & start_str & i & o' & end_str & j & _ & _ & _ & _ & _ &
        Hstart & _ & _ & _ & _ & Hend & Hsum & Hcolor).
  rewrite Hstart, Hend. cbn [dt_tz].
  split; [reflexivity |]. split; [reflexivity |].
  exists cals, cal, id, tmin, tmax, items, event.
  repeat split; try assumption.
  - unfold tracked. rewrite Hname. apply bool_decide_eq_true_2, Hnamein.
  - rewrite Hcolor. exact Hcol.
Qed.

Lemma returned_event_is_tagged_witness :
  dt_tz (start Sample.standup_event) = tz Sample.standup_event
  ∧ dt_tz (end_ Sample.standup_event) = tz Sample.standup_event
  ∧ ∃ cals cal id timeMin timeMax items event,
      calendarList_list (Sample.env Sample.ticking [Sample.standup]) = Ok cals
      ∧ cal ∈ default [] cals
      ∧ tracked ["Work"; "Life"] cal = true
      ∧ cal !! "backgroundColor" = Some (color Sample.standup_event)
      ∧ cal !! "id" = Some id
      ∧ events_list (Sample.env Sample.ticking [Sample.standup]) id timeMin timeMax
        = Ok items
      ∧ event ∈ default [] items
      ∧ event !! "summary" = Some (summary Sample.standup_event).
Proof.
  apply (returned_event_is_tagged (Sample.env Sample.ticking [Sample.standup])
           ["Work"; "Life"] 0%nat 6%nat
           [Sample.standup_event; Sample.lunch_event "#222"]).
  - vm_compute. reflexivity.
  - left.
Defined.

(** X10: get_next_events gives no partial result: when it returns, every
    calendar of the provider's list with a tracked name has an id and a
    backgroundColor, and the provider answered the request for its
    events, made for the window from one reading of the clock to the next
    reading plus 24 hours. *)
Theorem no_partial_results (E : Env) (calendar_names : list string)
    (n n' : nat) (out : list Event)
    (cals : option (list (gmap string string))) (cal : gmap string string) :
  GoogleCalendar.get_next_events E calendar_names n = Ok (out, n') →
  calendarList_list E = Ok cals →
  cal ∈ default [] cals →
  tracked calendar_names cal = true →
  ∃ id color k items,
    cal !! "id" = Some id ∧ cal !! "backgroundColor" = Some color
    ∧ (n ≤ k < n')%nat
    ∧ events_list E id (clock E k) (clock E (S k) + 24 * 3600 * 1000000) = Ok items.
Proof.
  intros H Hcals Hin Htracked.
  apply get_next_events_Ok in H as (cals' & kept & all_events & Hcals' & Hkept & Hall & _).
  rewrite Hcals in Hcals'. injection Hcals' as <-.
  apply applicable_Ok_filter in Hkept. subst kept.
  apply (collect_all_fetched E _ _ _ _ _ Hall cal).
  apply list_elem_of_filter. split; assumption.
Qed.

Lemma no_partial_results_witness :
  ∃ id color k items,
    Sample.work !! "id" = Some id ∧ Sample.work !! "backgroundColor" = Some color
    ∧ (0 ≤ k < 6)%nat
    ∧ events_list (Sample.env Sample.ticking [Sample.standup]) id
        (clock (Sample.env Sample.ticking [Sample.standup]) k)
        (clock (Sample.env Sample.ticking [Sample.standup]) (S k) + 24 * 3600 * 1000000)
      = Ok items.
Proof.
  apply (no_partial_results (Sample.env Sample.ticking [Sample.standup])
           ["Work"; "Life"] 0%nat 6%nat
           [Sample.standup_event; Sample.lunch_event "#222"]
           (Some [Sample.life; Sample.work]) Sample.work).
  - vm_compute. reflexivity.
  - reflexivity.
  - right. left.
  - vm_compute. reflexivity.
Defined.

(** X11: meetings raises exactly when get_next_events raises, and the
    same exception: computing and printing the time until the first
    event adds no failure. *)
Theorem meetings_raises_with_get_next_events (E : Env) (calendar_names : list string)
    (n : nat) (e : exn) :
  Py3status.meetings E calendar_names n = Raise e
  ↔ GoogleCalendar.get_next_events E calendar_names n = Raise e.
Proof.
  unfold Py3status.meetings, mbind at 1, M_bind at 1.
  destruct (GoogleCalendar.get_next_events E calendar_names n)
    as [[[| ev rest] k] | e0].
  - split; discriminate.
  - unfold mbind, M_bind. rewrite time_until_seconds. split; discriminate.
  - split; intros [= ->]; reflexivity.
Qed.

(** X13: the record meetings returns always carries cached_until =
    time_in(60) and exactly one of full_text and composite: either the
    text "No upcoming events", or two segments of which the first reads
    "In <H>h <M>m " or "In <M>m " for a time from 0 seconds up to 23 hours
    59 minutes 59 seconds and the second is colored. *)
Theorem meetings_output_shape (E : Env) (calendar_names : list string)
    (n n' : nat) (o : output) :
  Py3status.meetings E calendar_names n = Ok (o, n') →
  cached_until o = time_in E 60
  ∧ ((composite o = None ∧ full_text o = Some "No upcoming events")
     ∨ (full_text o = None
        ∧ ∃ seg1 seg2 s,
            composite o = Some [seg1; seg2]
            ∧ 0 <= s < 86400
            ∧ seg_full_text seg1 = JStr ("In " ++ hours_minutes s ++ " ")
            ∧ seg_color seg1 = get_duration_color {| seconds := s |}
            ∧ is_Some (seg_color seg2))).
Proof.
  unfold Py3status.meetings, mbind at 1, M_bind at 1.
  destruct (GoogleCalendar.get_next_events E calendar_names n)
    as [[[| ev rest] k] | e0]; [| | discriminate].
  - intros [= <- <-]. split; [reflexivity |]. left. split; reflexivity.
  - unfold mbind, M_bind. rewrite time_until_seconds.
    intros [= <- <-]. split; [reflexivity |]. right. split; [reflexivity |].
    eexists _, _, (((instant (start ev) - clock E k) / 1000000) mod 86400).
    split; [reflexivity |]. cbn [seg_full_text seg_color].
    split; [apply Z.mod_pos_bound; lia |].
    rewrite str_hours_minutes. cbn [seconds].
    split; [reflexivity |]. split; [reflexivity | eauto].
Qed.

Lemma meetings_output_shape_witness :
  ∃ o, Py3status.meetings (Sample.env Sample.ticking [Sample.standup]) ["Work"] 0%nat
       = Ok (o, 4%nat)
       ∧ cached_until o = 1793890260.
Proof.
  eexists. split; [vm_compute; reflexivity |].
  refine (proj1 (meetings_output_shape (Sample.env Sample.ticking [Sample.standup])
                   ["Work"] 0%nat 4%nat _ _)).
  vm_compute. reflexivity.
Defined.

(** X14: the sort of get_next_events leaves a list as it is exactly when
    the list is already in non-decreasing order of start; sorting twice
    is sorting once. *)
Theorem sort_by_start_fixed_point (l : list Event) :
  (GoogleCalendar.sort_by_start l = l ↔ StronglySorted start_le l)
  ∧ GoogleCalendar.sort_by_start (GoogleCalendar.sort_by_start l)
    = GoogleCalendar.sort_by_start l.
Proof.
  assert (Hfix : ∀ l', StronglySorted start_le l' → GoogleCalendar.sort_by_start l' = l').
  { intros l' Hsorted. symmetry.
    apply stable_sorted_unique;
      [exact Hsorted | apply sort_by_start_sorted |].
    intros t. symmetry. apply sort_by_start_stable. }
  split; [split |].
  - intros Heq. rewrite <- Heq. apply sort_by_start_sorted.
  - apply Hfix.
  - apply Hfix, sort_by_start_sorted.
Qed.

(** ** GoogleCalendar.__init__ *)

Section Init.

Import GoogleCalendar.

Context {Service : Type}.

Variable A : AuthEnv Service.

(** The run of [__init__], branch by branch. *)
Lemma init_cases :
  __init__ A
  = match token_pickle A with
    | Some (Raise e) => ([ALoad], Raise e)
    | Some (Ok c) =>
      if valid c then ([ALoad; ABuild c], build A c)
      else if expired c && truthy (refresh_token c) then
        match refresh A c with
        | Raise e => ([ALoad; ARefresh c], Raise e)
        | Ok c' =>
          match dump A c' with
          | Raise e => ([ALoad; ARefresh c; ADump c'], Raise e)
          | Ok _ => ([ALoad; ARefresh c; ADump c'; ABuild c'], build A c')
          end
        end
      else
        match run_local_server A with
        | Raise e => ([ALoad; ARunFlow], Raise e)
        | Ok c' =>
          match dump A c' with
          | Raise e => ([ALoad; ARunFlow; ADump c'], Raise e)
          | Ok _ => ([ALoad; ARunFlow; ADump c'; ABuild c'], build A c')
          end
        end
    | None =>
      match run_local_server A with
      | Raise e => ([ARunFlow], Raise e)
      | Ok c' =>
        match dump A c' with
        | Raise e => ([ARunFlow; ADump c'], Raise e)
        | Ok _ => ([ARunFlow; ADump c'; ABuild c'], build A c')
        end
      end
    end.
Proof.
  unfold __init__, login, obtain, call, mbind, W_bind, mret, W_ret.
  destruct (token_pickle A) as [[c | e] |]; cbn; [| reflexivity |].
  - destruct (valid c); cbn; [reflexivity |].
    destruct (expired c && truthy (refresh_token c)); cbn.
    + destruct (refresh A c) as [c' | e]; cbn; [| reflexivity].
      destruct (dump A c') as [[] | e]; reflexivity.
    + destruct (run_local_server A) as [c' | e]; cbn; [| reflexivity].
      destruct (dump A c') as [[] | e]; reflexivity.
  - destruct (run_local_server A) as [c' | e]; cbn; [| reflexivity].
    destruct (dump A c') as [[] | e]; reflexivity.
Qed.

End Init.

Ltac init_branches A :=
  rewrite (init_cases A);
  unfold stored_credentials;
  destruct (token_pickle A) as [[?c | ?e] |];
  [ destruct (valid _) eqn:?Hvalid;
    [| destruct (expired _ && truthy _) eqn:?Hrefresh;
       [ destruct (refresh A _) as [?c' | ?e] eqn:?Hres;
         [destruct (dump A _) as [[] | ?e] eqn:?Hdump |]
       | destruct (run_local_server A) as [?c' | ?e] eqn:?Hres;
         [destruct (dump A _) as [[] | ?e] eqn:?Hdump |] ] ]
  |
  | destruct (run_local_server A) as [?c' | ?e] eqn:?Hres;
    [destruct (dump A _) as [[] | ?e] eqn:?Hdump |] ].

(** X15: when __init__ succeeds, token.pickle holds afterwards exactly the
    credentials the service was built with, which is the last call made:
    the stored ones if they were valid, the refreshed or newly obtained
    ones, just written, otherwise. *)
Theorem init_token_holds_service_credentials {Service : Type} (A : AuthEnv Service)
    (trace : list action) (service : Service) :
  GoogleCalendar.__init__ A = (trace, Ok service) →
  ∃ c, build A c = Ok service
       ∧ token_after (stored_credentials A) trace = Some c
       ∧ last trace = Some (ABuild c).
Proof.
  init_branches A; intros [= <- Hbuild]; eauto.
Qed.

Lemma init_token_holds_service_credentials_witness :
  token_after
    (stored_credentials
       {| token_pickle := Some (Ok {| valid := false; expired := true;
                                      refresh_token := Some "1//r" |});
          refresh := λ c, Ok {| valid := true; expired := false;
                                refresh_token := refresh_token c |};
          run_local_server := Raise (HttpError "no browser");
          dump := λ _, Ok ();
          build := λ c, Ok (refresh_token c) |})
    [ALoad;
     ARefresh {| valid := false; expired := true; refresh_token := Some "1//r" |};
     ADump {| valid := true; expired := false; refresh_token := Some "1//r" |};
     ABuild {| valid := true; expired := false; refresh_token := Some "1//r" |}]
  = Some {| valid := true; expired := false; refresh_token := Some "1//r" |}.
Proof.
  destruct (init_token_holds_service_credentials
              {| token_pickle := Some (Ok {| valid := false; expired := true;
                                             refresh_token := Some "1//r" |});
                 refresh := λ c, Ok {| valid := true; expired := false;
                                       refresh_token := refresh_token c |};
                 run_local_server := Raise (HttpError "no browser");
                 dump := λ _, Ok ();
                 build := λ c, Ok (refresh_token c) |}
              [ALoad;
               ARefresh {| valid := false; expired := true; refresh_token := Some "1//r" |};
               ADump {| valid := true; expired := false; refresh_token := Some "1//r" |};
               ABuild {| valid := true; expired := false; refresh_token := Some "1//r" |}]
              (Some "1//r"))
    as (c & _ & Hfile & Hlast).
  - vm_compute. reflexivity.
  - rewrite Hfile. cbn in Hlast. congruence.
Defined.

(** X16: __init__ runs the interactive flow exactly when token.pickle does
    not exist, or holds credentials that are not valid and either not
    expired or without a refresh token; credentials that are not valid
    and not expired are not refreshed although they carry a refresh
    token. *)
Theorem init_runs_flow_iff {Service : Type} (A : AuthEnv Service)
    (trace : list action) (r : result Service) :
  GoogleCalendar.__init__ A = (trace, r) →
  (ARunFlow ∈ trace
   ↔ token_pickle A = None
     ∨ ∃ c, token_pickle A = Some (Ok c) ∧ valid c = false
            ∧ (expired c = false ∨ truthy (refresh_token c) = false)).
Proof.
  init_branches A; intros [= <- <-];
    rewrite ?elem_of_cons, ?elem_of_nil;
    try (apply andb_true_iff in Hrefresh; destruct Hrefresh as [Hexp Htok]);
    try apply andb_false_iff in Hrefresh;
    (split;
     [ intros Hin; repeat (destruct Hin as [Hin | Hin]; try discriminate Hin);
       try contradiction; eauto 10
     | intros [Hnone | (c1 & Heq & Hv & Hor)];
       [ try discriminate Hnone; eauto
       | try discriminate Heq; injection Heq as <-;
         try congruence; try (destruct Hor; congruence); eauto ] ]).
Qed.

Lemma init_runs_flow_iff_witness :
  ARunFlow ∈ [ALoad; ARunFlow].
Proof.
  apply (init_runs_flow_iff
           {| token_pickle := Some (Ok {| valid := false; expired := false;
                                          refresh_token := Some "1//r" |});
              refresh := λ c, Ok c;
              run_local_server := Raise (HttpError "no browser");
              dump := λ _, Ok ();
              build := λ c, Ok (refresh_token c) |}
           [ALoad; ARunFlow] (Raise (HttpError "no browser"))).
  - vm_compute. reflexivity.
  - right. eexists. split; [reflexivity |]. split; [reflexivity |]. left. reflexivity.
Defined.

(** X17: __init__ refreshes only credentials that were stored, not valid,
    expired and with a refresh token, and a run that refreshes never runs
    the interactive flow; if the refresh raises, __init__ raises the same
    exception and token.pickle is left as it was. *)
Theorem init_refresh_discipline {Service : Type} (A : AuthEnv Service)
    (trace : list action) (r : result Service) (c : Credentials) :
  GoogleCalendar.__init__ A = (trace, r) →
  ARefresh c ∈ trace →
  (ARunFlow ∉ trace)
  ∧ stored_credentials A = Some c
  ∧ valid c = false ∧ expired c = true ∧ truthy (refresh_token c) = true
  ∧ (∀ e, refresh A c = Raise e →
       r = Raise e ∧ token_after (stored_credentials A) trace = stored_credentials A).
Proof.
  init_branches A; intros [= <- <-] Hin;
    repeat (apply elem_of_cons in Hin as [Hin | Hin]; try discriminate Hin);
    try (apply elem_of_nil in Hin; destruct Hin);
    injection Hin as ->;
    apply andb_true_iff in Hrefresh as [Hexp Htok];
    (split; [intros Hflow;
             repeat (apply elem_of_cons in Hflow as [Hflow | Hflow];
                     try discriminate Hflow);
             apply elem_of_nil in Hflow; destruct Hflow |]);
    repeat (split; [first [reflexivity | assumption] |]);
    intros e' He'; rewrite He' in Hres; try discriminate Hres;
    injection Hres as <-; split; reflexivity.
Qed.

Lemma init_refresh_discipline_witness :
  GoogleCalendar.__init__
    {| token_pickle := Some (Ok {| valid := false; expired := true;
                                   refresh_token := Some "1//r" |});
       refresh := λ _, Raise (HttpError "invalid_grant");
       run_local_server := Ok {| valid := true; expired := false;
                                 refresh_token := Some "1//s" |};
       dump := λ _, Ok ();
       build := λ c, Ok (refresh_token c) |}
  = ([ALoad; ARefresh {| valid := false; expired := true; refresh_token := Some "1//r" |}],
     Raise (HttpError "invalid_grant")).
Proof.
  destruct (init_refresh_discipline
              {| token_pickle := Some (Ok {| valid := false; expired := true;
                                             refresh_token := Some "1//r" |});
                 refresh := λ _, Raise (HttpError "invalid_grant");
                 run_local_server := Ok {| valid := true; expired := false;
                                           refresh_token := Some "1//s" |};
                 dump := λ _, Ok ();
                 build := λ c, Ok (refresh_token c) |}
              [ALoad;
               ARefresh {| valid := false; expired := true; refresh_token := Some "1//r" |}]
              (Raise (HttpError "invalid_grant"))
              {| valid := false; expired := true; refresh_token := Some "1//r" |})
    as (_ & _ & _ & _ & _ & Hfail).
  - vm_compute. reflexivity.
  - right. left.
  - destruct (Hfail (HttpError "invalid_grant")) as [_ _]; reflexivity.
Defined.

(** X18: __init__ writes to token.pickle only credentials it has just
    obtained, from the refresh of the stored ones or from the flow; when
    the stored credentials are valid it makes two calls only, the load
    and the build with these credentials, and writes nothing. *)
Theorem init_writes_fresh_credentials {Service : Type} (A : AuthEnv Service)
    (trace : list action) (r : result Service) :
  GoogleCalendar.__init__ A = (trace, r) →
  (∀ c, ADump c ∈ trace →
     run_local_server A = Ok c
     ∨ ∃ c0, stored_credentials A = Some c0 ∧ refresh A c0 = Ok c)
  ∧ (∀ c0, stored_credentials A = Some c0 → valid c0 = true →
       trace = [ALoad; ABuild c0] ∧ r = build A c0).
Proof.
  init_branches A; intros [= <- <-];
    (split;
     [ intros c1 Hin;
       repeat (apply elem_of_cons in Hin as [Hin | Hin]; try discriminate Hin);
       try (apply elem_of_nil in Hin; destruct Hin);
       injection Hin as ->; eauto
     | intros c1 Hst Hv; try discriminate Hst; injection Hst as ->;
       first [congruence | split; reflexivity] ]).
Qed.

Lemma init_writes_fresh_credentials_witness :
  GoogleCalendar.__init__
    {| token_pickle := Some (Ok {| valid := true; expired := false;
                                   refresh_token := Some "1//r" |});
       refresh := λ _, Raise (HttpError "invalid_grant");
       run_local_server := Raise (HttpError "no browser");
       dump := λ _, Raise (HttpError "read-only");
       build := λ c, Ok (refresh_token c) |}
  = ([ALoad; ABuild {| valid := true; expired := false; refresh_token := Some "1//r" |}],
     Ok (Some "1//r")).
Proof.
  destruct (init_writes_fresh_credentials
              {| token_pickle := Some (Ok {| valid := true; expired := false;
                                             refresh_token := Some "1//r" |});
                 refresh := λ _, Raise (HttpError "invalid_grant");
                 run_local_server := Raise (HttpError "no browser");
                 dump := λ _, Raise (HttpError "read-only");
                 build := λ c, Ok (refresh_token c) |}
              _ _ eq_refl) as [_ H].
  destruct (H {| valid := true; expired := false; refresh_token := Some "1//r" |}
              eq_refl eq_refl) as [Htr Hr].
  vm_compute. reflexivity.
Defined.

(** ** A day of all-day events *)

Section OnlyAllDay.

Import GoogleCalendar.

Variable E : Env.

Hypothesis only_all_day :
  ∀ id timeMin timeMax, ∃ items,
    events_list E id timeMin timeMax = Ok items
    ∧ Forall (λ event, is_all_day event = true) (default [] items).

Lemma parse_events_all_day (color : string) (events : list (gmap string jvalue))
    (acc : list Event) (n : nat) :
  Forall (λ event, is_all_day event = true) events →
  parse_events E color events acc n = Ok (acc, n).
Proof.
  induction 1 as [| event rest Hday _ IH]; [reflexivity |].
  cbn [parse_events]. unfold mbind, M_bind.
  rewrite (parse_event_all_day E color event n Hday). exact IH.
Qed.

Lemma collect_all_day (cals : list (gmap string string)) :
  Forall (λ cal, is_Some (cal !! "id") ∧ is_Some (cal !! "backgroundColor")) cals →
  ∀ (acc : list Event) (n : nat),
    collect E cals acc n = Ok (acc, (n + 2 * length cals)%nat).
Proof.
  induction 1 as [| cal rest [[id Hid] [color Hcolor]] _ IH]; intros acc n.
  - cbn [collect length]. unfold mret, M_ret.
    replace (n + 2 * 0)%nat with n by lia. reflexivity.
  - cbn [collect]. unfold mbind at 1, M_bind at 1, getitem. rewrite Hid.
    cbn [mret M_ret]. unfold mbind at 1, M_bind at 1. rewrite Hcolor.
    cbn [mret M_ret]. unfold mbind at 1, M_bind at 1.
    unfold _get_events, mbind, M_bind, utcnow, lift, mret, M_ret.
    destruct (only_all_day id (clock E n) (clock E (S n) + day_micros))
      as (items & -> & Hdays).
    rewrite (parse_events_all_day _ _ _ _ Hdays), app_nil_r, IH.
    cbn [length].
    replace (S (S n) + 2 * length rest)%nat with (n + 2 * S (length rest))%nat by lia.
    reflexivity.
Qed.

End OnlyAllDay.

(** X19: when the provider answers every events request with all-day
    events only, or with none, and the tracked calendars are well formed,
    get_next_events returns the empty list after two readings of the
    clock per tracked calendar, and meetings shows "No upcoming events". *)
Theorem only_all_day_events (E : Env) (calendar_names : list string) (n : nat)
    (cals : option (list (gmap string string))) :
  (∀ id timeMin timeMax, ∃ items,
     events_list E id timeMin timeMax = Ok items
     ∧ Forall (λ event, is_all_day event = true) (default [] items)) →
  calendarList_list E = Ok cals →
  Forall (λ cal, is_Some (cal !! "summary") ∧ is_Some (cal !! "id")
                 ∧ is_Some (cal !! "backgroundColor")) (default [] cals) →
  GoogleCalendar.get_next_events E calendar_names n
  = Ok ([], (n + 2 * length (filter (λ cal, tracked calendar_names cal = true)
                               (default [] cals)))%nat)
  ∧ Py3status.meetings E calendar_names n
    = Ok (no_upcoming_events E,
          (n + 2 * length (filter (λ cal, tracked calendar_names cal = true)
                             (default [] cals)))%nat).
Proof.
  intros Hdays Hcals Hwf.
  assert (Hget : GoogleCalendar.get_next_events E calendar_names n
                 = Ok ([], (n + 2 * length (filter (λ cal, tracked calendar_names cal = true)
                                              (default [] cals)))%nat)).
  { unfold GoogleCalendar.get_next_events, mbind, M_bind, lift. rewrite Hcals.
    rewrite applicable_filter
      by (eapply Forall_impl; [exact Hwf | intros cal (Hs & _); exact Hs]).
    rewrite (collect_all_day E Hdays); [reflexivity |].
    apply Forall_forall. intros cal Hin. apply list_elem_of_filter in Hin as [_ Hin].
    rewrite Forall_forall in Hwf. destruct (Hwf cal Hin) as (_ & Hid & Hcolor).
    split; assumption. }
  split; [exact Hget |].
  unfold Py3status.meetings, mbind, M_bind. rewrite Hget. reflexivity.
Qed.

Lemma only_all_day_events_witness :
  Py3status.meetings
    {| clock := Sample.ticking; tz_database := Sample.zones; iso_instant := Sample.iso;
       calendarList_list := Ok (Some [Sample.life; Sample.work]);
       events_list := λ _ _ _, Ok (Some [Sample.holiday]);
       time_in := λ s, s |} ["Work"] 0%nat
  = Ok ({| cached_until := 60; composite := None;
           full_text := Some "No upcoming events" |}, 2%nat).
Proof.
  refine (proj2 (only_all_day_events
                   {| clock := Sample.ticking; tz_database := Sample.zones;
                      iso_instant := Sample.iso;
                      calendarList_list := Ok (Some [Sample.life; Sample.work]);
                      events_list := λ _ _ _, Ok (Some [Sample.holiday]);
                      time_in := λ s, s |} ["Work"] 0%nat
                   (Some [Sample.life; Sample.work]) _ eq_refl _)).
  - intros id timeMin timeMax. exists (Some [Sample.holiday]).
    split; [reflexivity |]. repeat constructor.
  - repeat constructor; eexists; reflexivity.
Defined.

(** * Doubles *)

(** ** Rounding *)

Section Rounding.

Import Double.

Local Open Scope Q_scope.

Lemma half_even_close (q : Q) :
  q - (1#2) <= inject_Z (half_even q) /\ inject_Z (half_even q) <= q + (1#2).
Proof.
  unfold half_even.
  pose proof (Qfloor_le q) as Hlo. pose proof (Qlt_floor q) as Hhi.
  rewrite inject_Z_plus in Hhi. change (inject_Z 1) with 1 in Hhi.
  destruct (Qcompare_spec (q - inject_Z (Qfloor q)) (1#2)) as [Heq | Hlt | Hgt].
  - destruct (Z.even (Qfloor q));
      [| rewrite inject_Z_plus; change (inject_Z 1) with 1]; lra.
  - lra.
  - rewrite inject_Z_plus. change (inject_Z 1) with 1. lra.
Qed.

Lemma half_even_int (q : Q) (n : Z) : q == inject_Z n -> half_even q = n.
Proof.
  intros Hq. unfold half_even.
  assert (Hf : Qfloor q = n) by (rewrite Hq; apply Qfloor_Z).
  rewrite Hf.
  destruct (Qcompare_spec (q - inject_Z n) (1#2)) as [Heq | Hlt | Hgt]; [lra | reflexivity | lra].
Qed.

Lemma pow2_pos (e : Z) : 0 < 2 ^ e.
Proof. apply Qpower_0_lt. reflexivity. Qed.

Lemma exponent_lower (x : Q) : 0 < x -> 2 ^ (exponent x + 52) <= x.
Proof.
  intros Hx. unfold exponent.
  set (k := (Z.log2 (Qnum x) - Z.log2 (Z.pos (Qden x)))%Z).
  destruct (Qle_bool (2 ^ k) x) eqn:Hk.
  - apply Qle_bool_iff in Hk. replace (k - 52 + 52)%Z with k by lia. exact Hk.
  - replace (k - 53 + 52)%Z with (k - 1)%Z by lia.
    destruct x as [a b]. cbn [Qnum Qden] in *.
    assert (Ha : (0 < a)%Z) by (unfold Qlt in Hx; cbn in Hx; lia).
    destruct (Z.log2_spec a Ha) as [Hla _].
    destruct (Z.log2_spec (Z.pos b) (Pos2Z.is_pos b)) as [_ Hlb].
    pose proof (Z.log2_nonneg a) as Hla0.
    pose proof (Z.log2_nonneg (Z.pos b)) as Hlb0.
    (* 2^(k-1) * b < 2^(k-1) * 2^(lb+1) = 2^la <= a *)
    assert (Hpow : 2 ^ (k - 1) * 2 ^ (Z.log2 (Z.pos b) + 1) == 2 ^ (Z.log2 a)).
    { rewrite <- Qpower_plus by discriminate. subst k.
      replace (Z.log2 a - Z.log2 (Z.pos b) - 1 + (Z.log2 (Z.pos b) + 1))%Z
        with (Z.log2 a) by lia. reflexivity. }
    assert (HA : 2 ^ (Z.log2 a) <= inject_Z a).
    { change 2 with (inject_Z 2). rewrite <- Zpower_Qpower by lia.
      rewrite <- Zle_Qle. exact Hla. }
    assert (HB : inject_Z (Z.pos b) <= 2 ^ (Z.log2 (Z.pos b) + 1)).
    { change 2 with (inject_Z 2). rewrite <- Zpower_Qpower by lia.
      rewrite <- Zle_Qle. change (Z.succ (Z.log2 (Z.pos b))) with (Z.log2 (Z.pos b) + 1)%Z in Hlb. lia. }
    pose proof (pow2_pos (k - 1)) as Hp.
    assert (Hx' : a # b == inject_Z a / inject_Z (Z.pos b)) by apply Qmake_Qdiv.
    rewrite Hx'.
    apply Qle_shift_div_l; [reflexivity |].
    apply Qle_trans with (2 ^ (k - 1) * 2 ^ (Z.log2 (Z.pos b) + 1)).
    + apply Qmult_le_l; [exact Hp | exact HB].
    + rewrite Hpow. exact HA.
Qed.

Lemma round_pos_error (x : Q) :
  0 < x -> x - x * u <= round_pos x /\ round_pos x <= x + x * u.
Proof.
  intros Hx. unfold round_pos.
  set (e := exponent x).
  pose proof (pow2_pos e) as HP.
  pose proof (exponent_lower x Hx) as Hlow. fold e in Hlow.
  rewrite Qpower_plus in Hlow by discriminate.
  change (2 ^ 52) with (4503599627370496 # 1) in Hlow.
  destruct (half_even_close (x / 2 ^ e)) as [Hm1 Hm2].
  set (m := inject_Z (half_even (x / 2 ^ e))) in *.
  assert (Hd : x / 2 ^ e * 2 ^ e == x) by (field; lra).
  set (P := 2 ^ e) in *. set (d := x / P) in *.
  unfold u.
  assert (H1 : (d - (1#2)) * P <= m * P) by (apply Qmult_le_compat_r; lra).
  assert (H2 : m * P <= (d + (1#2)) * P) by (apply Qmult_le_compat_r; lra).
  split; lra.
Qed.

Lemma Qnum_sign (x : Q) :
  (Qnum x = 0%Z <-> x == 0) /\ ((0 < Qnum x)%Z <-> 0 < x) /\ ((Qnum x < 0)%Z <-> x < 0).
Proof. destruct x as [a b]. unfold Qeq, Qlt. cbn. lia. Qed.

Lemma round_nonneg (x : Q) :
  0 <= x -> x - x * u <= round x /\ round x <= x + x * u.
Proof.
  intros Hx. unfold round.
  destruct (Qnum x) as [| p | p] eqn:Hn.
  - apply (proj1 (Qnum_sign x)) in Hn. unfold u. lra.
  - apply round_pos_error. apply Qnum_sign. lia.
  - assert (x < 0) by (apply Qnum_sign; lia). lra.
Qed.

Lemma round_nonpos (x : Q) :
  x <= 0 -> x + x * u <= round x /\ round x <= x - x * u.
Proof.
  intros Hx. unfold round.
  destruct (Qnum x) as [| p | p] eqn:Hn.
  - apply (proj1 (Qnum_sign x)) in Hn. unfold u. lra.
  - assert (0 < x) by (apply Qnum_sign; lia). lra.
  - assert (Hneg : x < 0) by (apply Qnum_sign; lia).
    destruct (round_pos_error (- x)) as [H1 H2]; [lra |]. lra.
Qed.

Lemma round_pos_int (x : Q) (n : Z) :
  x == inject_Z n -> (0 < n < 2 ^ 53)%Z -> round_pos x == inject_Z n.
Proof.
  intros Hx Hn. unfold round_pos.
  assert (Hpos : 0 < x) by (rewrite Hx; change 0 with (inject_Z 0); rewrite <- Zlt_Qlt; lia).
  set (e := exponent x).
  pose proof (exponent_lower x Hpos) as Hlow. fold e in Hlow.
  assert (He : (e <= 0)%Z).
  { assert (Hlt : 2 ^ (e + 52) < 2 ^ 53).
    { eapply Qle_lt_trans; [exact Hlow |]. rewrite Hx.
      change (2 ^ 53) with (inject_Z (2 ^ 53)). rewrite <- Zlt_Qlt. lia. }
    apply Qpower_lt_compat_l_inv in Hlt; [lia | reflexivity]. }
  assert (Hscale : x / 2 ^ e == inject_Z (n * 2 ^ (- e))).
  { rewrite inject_Z_mult, Zpower_Qpower by lia. rewrite Hx.
    change (inject_Z 2) with 2. rewrite Qpower_opp.
    pose proof (pow2_pos e). field. lra. }
  rewrite (half_even_int _ _ Hscale).
  rewrite inject_Z_mult, Zpower_Qpower by lia.
  change (inject_Z 2) with 2. rewrite Qpower_opp.
  pose proof (pow2_pos e). field. lra.
Qed.

Lemma round_int (x : Q) (n : Z) :
  x == inject_Z n -> (- 2 ^ 53 < n < 2 ^ 53)%Z -> round x == inject_Z n.
Proof.
  intros Hx Hn. unfold round.
  destruct (Qnum x) as [| p | p] eqn:Hq.
  - apply (proj1 (Qnum_sign x)) in Hq. rewrite <- Hx, Hq. reflexivity.
  - assert (0 < x) by (apply Qnum_sign; lia).
    apply round_pos_int; [exact Hx |].
    split; [| lia]. rewrite Zlt_Qlt. rewrite <- Hx. exact H.
  - assert (x < 0) by (apply Qnum_sign; lia).
    assert (Hneg : - x == inject_Z (- n)) by (rewrite inject_Z_opp, Hx; reflexivity).
    rewrite (round_pos_int _ _ Hneg).
    + rewrite inject_Z_opp. lra.
    + split; [| lia]. rewrite Zlt_Qlt, inject_Z_opp, <- Hx. change (inject_Z 0) with 0. lra.
Qed.

Lemma trunc_floor (q : Q) (k : Z) :
  (0 <= k)%Z -> inject_Z k <= q -> q < inject_Z (k + 1) -> DurationM.trunc q = k.
Proof.
  destruct q as [a b]. unfold DurationM.trunc, Qle, Qlt. cbn. intros Hk H1 H2.
  rewrite Z.quot_div_nonneg by nia.
  symmetry. apply (Z.div_unique a (Z.pos b) k (a - k * Z.pos b)); nia.
Qed.

Lemma trunc_ceil (q : Q) (k : Z) :
  (k + 1 <= 0)%Z -> inject_Z k < q -> q <= inject_Z (k + 1) -> DurationM.trunc q = (k + 1)%Z.
Proof.
  destruct q as [a b]. unfold DurationM.trunc, Qle, Qlt. cbn. intros Hk H1 H2.
  replace a with (- (- a))%Z by lia. rewrite Z.quot_opp_l by lia.
  rewrite Z.quot_div_nonneg by nia.
  assert (Hdiv : ((- a) / Z.pos b = - (k + 1))%Z).
  { symmetry. apply (Z.div_unique (- a) (Z.pos b) (- (k + 1)) (- a + (k + 1) * Z.pos b)); nia. }
  rewrite Hdiv. lia.
Qed.

Lemma trunc_int (q : Q) (n : Z) : q == inject_Z n -> DurationM.trunc q = n.
Proof.
  intros Hq. destruct (Z_le_gt_dec 0 n).
  - apply trunc_floor; [lia | lra |]. rewrite inject_Z_plus. change (inject_Z 1) with 1. lra.
  - replace n with (n - 1 + 1)%Z by lia. apply trunc_ceil; [lia | |].
    + unfold Z.sub. rewrite inject_Z_plus, inject_Z_opp. change (inject_Z 1) with 1. lra.
    + replace (n - 1 + 1)%Z with n by lia. lra.
Qed.

Lemma Qdiv60 (q : Q) : q / 60 == q * (1 # 60).
Proof. field. Qed.

End Rounding.

(** ** The quotients of a second count below 2^50 *)

Section Bounded.

Import Double.

Local Open Scope Q_scope.


Variable s : Z.
Hypothesis Hs : (- 2 ^ 50 < s < 2 ^ 50)%Z.

Let Sq : Q := inject_Z s.
Let y : Q := round (Sq / 60).

Lemma S_bounds : - 1125899906842624 < Sq /\ Sq < 1125899906842624.
Proof.
  unfold Sq. split.
  - change (- 1125899906842624) with (inject_Z (- 2 ^ 50)). rewrite <- Zlt_Qlt. lia.
  - change (1125899906842624) with (inject_Z (2 ^ 50)). rewrite <- Zlt_Qlt. lia.
Qed.

Lemma S_sign : ((0 <= s)%Z -> 0 <= Sq) /\ ((s <= 0)%Z -> Sq <= 0) /\ ((s < 0)%Z -> Sq < 0).
Proof.
  unfold Sq. change 0 with (inject_Z 0). rewrite <- !Zle_Qle, <- Zlt_Qlt. tauto.
Qed.

Lemma y_nonneg : (0 <= s)%Z ->
  Sq * (1#60) - Sq * (1#60) * u <= y /\ y <= Sq * (1#60) + Sq * (1#60) * u.
Proof.
  intros H. apply S_sign in H. pose proof (Qdiv60 Sq) as HX.
  destruct (round_nonneg (Sq / 60)) as [H1 H2]; [rewrite HX; lra |].
  fold y in H1, H2. set (X := Sq / 60) in *. unfold u in *. split; lra.
Qed.

Lemma y_nonpos : (s <= 0)%Z ->
  Sq * (1#60) + Sq * (1#60) * u <= y /\ y <= Sq * (1#60) - Sq * (1#60) * u.
Proof.
  intros H. apply S_sign in H. pose proof (Qdiv60 Sq) as HX.
  destruct (round_nonpos (Sq / 60)) as [H1 H2]; [rewrite HX; lra |].
  fold y in H1, H2. set (X := Sq / 60) in *. unfold u in *. split; lra.
Qed.

Lemma y_exact (n : Z) : s = (60 * n)%Z -> y == inject_Z n.
Proof.
  intros Hn. apply round_int; [| lia].
  unfold Sq. rewrite Hn, inject_Z_mult. change (inject_Z 60) with 60. field.
Qed.

(** s = 3600 k + r in Q *)
Lemma S_decomp :
  let k := (s / 3600)%Z in let r := (s mod 3600)%Z in
  Sq == 3600 * inject_Z k + inject_Z r /\ 0 <= inject_Z r /\ inject_Z r <= 3599
  /\ ((r <> 0)%Z -> 1 <= inject_Z r).
Proof.
  intros k r. assert (Hz : (s = 3600 * k + r /\ 0 <= r <= 3599)%Z).
  { subst k r. Z.to_euclidean_division_equations. lia. }
  destruct Hz as [Heq [H0 H1]]. unfold Sq. split; [| split; [| split]].
  - rewrite Heq at 1. rewrite inject_Z_plus, inject_Z_mult. reflexivity.
  - change 0 with (inject_Z 0). rewrite <- Zle_Qle. exact H0.
  - change 3599 with (inject_Z 3599). rewrite <- Zle_Qle. exact H1.
  - intros Hr. change 1 with (inject_Z 1). rewrite <- Zle_Qle. lia.
Qed.

(** y / 60 lies strictly between k and k + 1 unless 3600 divides s *)
Lemma y60_between :
  (s mod 3600 <> 0)%Z ->
  inject_Z (s / 3600) < y * (1#60) /\ y * (1#60) < inject_Z (s / 3600) + 1.
Proof.
  intros Hr. destruct S_decomp as (HS & Hr0 & Hr1 & Hr2). specialize (Hr2 Hr).
  destruct S_bounds as [Hb1 Hb2].
  destruct (Z_le_gt_dec 0 s) as [Hpos | Hneg].
  - destruct (y_nonneg Hpos) as [H1 H2]. apply S_sign in Hpos. unfold u in *.
    set (K := inject_Z (s / 3600)) in *. set (R := inject_Z (s mod 3600)) in *.
    split; lra.
  - destruct (y_nonpos ltac:(lia)) as [H1 H2].
    assert (HS0 : Sq < 0) by (apply S_sign; lia). unfold u in *.
    set (K := inject_Z (s / 3600)) in *. set (R := inject_Z (s mod 3600)) in *.
    split; lra.
Qed.

Lemma y60_exact : (s mod 3600 = 0)%Z -> y / 60 == inject_Z (s / 3600).
Proof.
  intros Hr.
  assert (Hy : y == inject_Z (60 * (s / 3600))).
  { apply y_exact. Z.to_euclidean_division_equations. lia. }
  rewrite Hy, inject_Z_mult. change (inject_Z 60) with 60. field.
Qed.

Lemma y_sign : ((0 <= s)%Z -> 0 <= y) /\ ((s <= 0)%Z -> y <= 0).
Proof.
  split; intros H.
  - destruct (y_nonneg H) as [H1 _]. apply S_sign in H. unfold u in *. lra.
  - destruct (y_nonpos H) as [_ H2]. apply S_sign in H. unfold u in *. lra.
Qed.

(** DurationM.trunc (y / 60), the quotient [fmod] works with *)
Lemma trunc_y60 :
  DurationM.trunc (y / 60)
  = if (0 <=? s)%Z then (s / 3600)%Z
    else if (s mod 3600 =? 0)%Z then (s / 3600)%Z else (s / 3600 + 1)%Z.
Proof.
  destruct (Z.eqb_spec (s mod 3600) 0) as [Hr | Hr].
  - rewrite (trunc_int _ _ (y60_exact Hr)). destruct (0 <=? s)%Z; reflexivity.
  - destruct (y60_between Hr) as [H1 H2]. pose proof (Qdiv60 y) as HY.
    destruct (Z.leb_spec 0 s) as [Hpos | Hneg].
    + apply trunc_floor.
      * Z.to_euclidean_division_equations. lia.
      * rewrite HY. lra.
      * rewrite HY, inject_Z_plus. change (inject_Z 1) with 1. lra.
    + apply trunc_ceil.
      * Z.to_euclidean_division_equations. lia.
      * rewrite HY. lra.
      * rewrite HY, inject_Z_plus. change (inject_Z 1) with 1. lra.
Qed.

(** hours_full *)
Lemma hours_lt_1 : round (y / 60) < 1 <-> (s < 3600)%Z.
Proof.
  pose proof (Qdiv60 y) as HY. destruct S_bounds as [Hb1 Hb2].
  destruct (Z_lt_ge_dec s 3600) as [Hlt | Hge].
  - split; [intros _; exact Hlt | intros _].
    destruct (Z_le_gt_dec 0 s) as [Hpos | Hneg].
    + destruct (y_nonneg Hpos) as [H1 H2].
      assert (HS : Sq <= 3599).
      { unfold Sq. change 3599 with (inject_Z 3599). rewrite <- Zle_Qle. lia. }
      apply S_sign in Hpos.
      destruct (round_nonneg (y / 60)) as [_ H4];
        [rewrite HY; unfold u in *; lra |].
      set (Y := y / 60) in *. unfold u in *. lra.
    + destruct (round_nonpos (y / 60)) as [_ H4];
        [rewrite HY; pose proof (proj2 y_sign ltac:(lia)); lra |].
      pose proof (proj2 y_sign ltac:(lia)).
      set (Y := y / 60) in *. unfold u in *. lra.
  - split; [intros Hh; exfalso | intros Hc; lia].
    destruct (Z.eq_dec s 3600%Z) as [Heq | Hne].
    + assert (Hy : y / 60 == inject_Z 1).
      { rewrite y60_exact by (rewrite Heq; reflexivity). rewrite Heq. reflexivity. }
      rewrite (round_int _ _ Hy) in Hh by lia. change (inject_Z 1) with 1 in Hh. lra.
    + assert (HS : 3601 <= Sq).
      { unfold Sq. change 3601 with (inject_Z 3601). rewrite <- Zle_Qle. lia. }
      destruct (y_nonneg ltac:(lia)) as [H1 H2].
      destruct (round_nonneg (y / 60)) as [H3 _];
        [rewrite HY; unfold u in *; lra |].
      set (Y := y / 60) in *. unfold u in *. lra.
Qed.

Lemma hours_trunc : (0 <= s)%Z -> DurationM.trunc (round (y / 60)) = (s / 3600)%Z.
Proof.
  intros Hpos. pose proof (Qdiv60 y) as HY. destruct S_bounds as [Hb1 Hb2].
  destruct (Z.eq_dec (s mod 3600)%Z 0%Z) as [Hr | Hr].
  - apply trunc_int, round_int; [exact (y60_exact Hr) |].
    Z.to_euclidean_division_equations. lia.
  - destruct S_decomp as (HS & Hr0 & Hr1 & Hr2). specialize (Hr2 Hr).
    destruct (y_nonneg Hpos) as [H1 H2]. pose proof (proj1 S_sign Hpos) as HS0.
    destruct (round_nonneg (y / 60)) as [H3 H4];
      [rewrite HY; unfold u in *; lra |].
    set (K := inject_Z (s / 3600)) in *. set (R := inject_Z (s mod 3600)) in *.
    apply trunc_floor.
    + Z.to_euclidean_division_equations. lia.
    + fold K. set (Y := y / 60) in *. unfold u in *. lra.
    + rewrite inject_Z_plus. change (inject_Z 1) with 1. fold K.
      set (Y := y / 60) in *. unfold u in *. lra.
Qed.

(** s = 3600 k + 60 M + r' in Q *)
Lemma S_decomp60 :
  let k := (s / 3600)%Z in let M := ((s / 60) mod 60)%Z in let r' := (s mod 60)%Z in
  Sq == 3600 * inject_Z k + 60 * inject_Z M + inject_Z r'
  /\ 0 <= inject_Z r' /\ inject_Z r' <= 59 /\ ((r' <> 0)%Z -> 1 <= inject_Z r').
Proof.
  intros k M r'. assert (Hz : (s = 3600 * k + 60 * M + r' /\ 0 <= r' <= 59)%Z).
  { subst k M r'. Z.to_euclidean_division_equations. lia. }
  destruct Hz as [Heq [H0 H1]]. unfold Sq. split; [| split; [| split]].
  - rewrite Heq at 1. rewrite !inject_Z_plus, !inject_Z_mult. reflexivity.
  - change 0 with (inject_Z 0). rewrite <- Zle_Qle. exact H0.
  - change 59 with (inject_Z 59). rewrite <- Zle_Qle. exact H1.
  - intros Hr. change 1 with (inject_Z 1). rewrite <- Zle_Qle. lia.
Qed.

Lemma y_minus_60k_exact :
  (s mod 60 = 0)%Z -> y - 60 * inject_Z (s / 3600) == inject_Z ((s / 60) mod 60).
Proof.
  intros Hr.
  assert (Hy : y == inject_Z (s / 60)).
  { apply y_exact. Z.to_euclidean_division_equations. lia. }
  rewrite Hy.
  assert (Hz : (s / 60 = 60 * (s / 3600) + (s / 60) mod 60)%Z).
  { Z.to_euclidean_division_equations. lia. }
  rewrite Hz at 1. rewrite inject_Z_plus, inject_Z_mult. change (inject_Z 60) with 60. ring.
Qed.

Lemma y_minus_60k_between :
  (s mod 60 <> 0)%Z ->
  inject_Z ((s / 60) mod 60) + (1 # 120) <= y - 60 * inject_Z (s / 3600)
  /\ y - 60 * inject_Z (s / 3600) <= inject_Z ((s / 60) mod 60) + (119 # 120).
Proof.
  intros Hr. destruct S_decomp60 as (HS & Hr0 & Hr1 & Hr2). specialize (Hr2 Hr).
  destruct S_bounds as [Hb1 Hb2].
  set (K := inject_Z (s / 3600)) in *. set (M := inject_Z ((s / 60) mod 60)) in *.
  set (R := inject_Z (s mod 60)) in *.
  destruct (Z_le_gt_dec 0 s) as [Hpos | Hneg].
  - destruct (y_nonneg Hpos) as [H1 H2]. apply S_sign in Hpos. unfold u in *.
    split; lra.
  - destruct (y_nonpos ltac:(lia)) as [H1 H2].
    assert (HS0 : Sq < 0) by (apply S_sign; lia). unfold u in *.
    split; lra.
Qed.

Lemma M_range : (0 <= (s / 60) mod 60 <= 59)%Z.
Proof. Z.to_euclidean_division_equations. lia. Qed.

Lemma y_minus_60k_range :
  inject_Z ((s / 60) mod 60) <= y - 60 * inject_Z (s / 3600)
  /\ y - 60 * inject_Z (s / 3600) <= inject_Z ((s / 60) mod 60) + (119 # 120).
Proof.
  destruct (Z.eq_dec (s mod 60)%Z 0%Z) as [Hr | Hr].
  - pose proof (y_minus_60k_exact Hr). split; lra.
  - destruct (y_minus_60k_between Hr). split; lra.
Qed.

Lemma minutes_trunc : DurationM.trunc (float_mod y 60) = ((s / 60) mod 60)%Z.
Proof.
  pose proof M_range as HM.
  assert (HMq : 0 <= inject_Z ((s / 60) mod 60)).
  { change 0 with (inject_Z 0). rewrite <- Zle_Qle. lia. }
  assert (HMq' : inject_Z ((s / 60) mod 60) <= 59).
  { change 59 with (inject_Z 59). rewrite <- Zle_Qle. lia. }
  destruct y_minus_60k_range as [Hlo Hhi].
  unfold float_mod, fmod. rewrite trunc_y60.
  assert (Hsame : forall m0 : Q,
             m0 == y - 60 * inject_Z (s / 3600) ->
             DurationM.trunc match Qnum m0 with
                   | 0%Z => 0
                   | Z.pos _ => m0
                   | Z.neg _ => round (m0 + 60)
                   end = ((s / 60) mod 60)%Z).
  { intros m0 Hm0. destruct (Qnum m0) as [| p | p] eqn:Hq.
    - apply (proj1 (Qnum_sign m0)) in Hq.
      apply trunc_floor; [lia | lra |].
      rewrite inject_Z_plus. change (inject_Z 1) with 1. lra.
    - apply trunc_floor; [lia | lra |].
      rewrite inject_Z_plus. change (inject_Z 1) with 1. lra.
    - assert (m0 < 0) by (apply Qnum_sign; lia). lra. }
  destruct (Z.leb_spec 0 s) as [Hpos | Hneg]; [apply Hsame; reflexivity |].
  destruct (Z.eqb_spec (s mod 3600) 0) as [Hr | Hr]; [apply Hsame; reflexivity |].
  set (m0 := y - 60 * inject_Z (s / 3600 + 1)).
  assert (Hm0 : m0 + 60 == y - 60 * inject_Z (s / 3600)).
  { unfold m0. rewrite inject_Z_plus. change (inject_Z 1) with 1. ring. }
  destruct (Qnum m0) as [| p | p] eqn:Hq.
  - apply (proj1 (Qnum_sign m0)) in Hq. lra.
  - assert (0 < m0) by (apply Qnum_sign; lia). lra.
  - destruct (Z.eq_dec (s mod 60)%Z 0%Z) as [Hr60 | Hr60].
    + apply trunc_int, round_int; [| lia].
      rewrite Hm0. exact (y_minus_60k_exact Hr60).
    + destruct (y_minus_60k_between Hr60) as [Hlo' Hhi'].
      destruct (round_nonneg (m0 + 60)) as [H1 H2]; [lra |].
      set (w := m0 + 60) in *. unfold u in *.
      apply trunc_floor; [lia | lra |].
      rewrite inject_Z_plus. change (inject_Z 1) with 1. lra.
Qed.

End Bounded.

(** ** Duration in doubles *)

Section DurationDoubles.

Local Open Scope Q_scope.

Variable d : Duration.
Hypothesis Hbound : (- 2 ^ 50 < seconds d < 2 ^ 50)%Z.

Lemma truediv_bounded :
  Double.truediv (seconds d) 60 = Ok (Double.round (inject_Z (seconds d) / 60)).
Proof.
  unfold Double.truediv. change (inject_Z 60) with 60.
  destruct (S_bounds (seconds d) Hbound) as [Hb1 Hb2].
  pose proof (Qdiv60 (inject_Z (seconds d))) as HX.
  assert (Hbig : 1125899906842624 <= inject_Z (2 ^ 1024)).
  { change 1125899906842624 with (inject_Z (2 ^ 50)). rewrite <- Zle_Qle.
    apply Z.pow_le_mono_r; lia. }
  assert (Hbig' : inject_Z (- 2 ^ 1024) <= - 1125899906842624).
  { rewrite inject_Z_opp. lra. }
  assert (Hy : - 1125899906842624 < Double.round (inject_Z (seconds d) / 60)
               /\ Double.round (inject_Z (seconds d) / 60) < 1125899906842624).
  { destruct (Z_le_gt_dec 0 (seconds d)) as [Hpos | Hneg].
    - destruct (y_nonneg (seconds d) Hbound Hpos) as [H1 H2].
      apply (S_sign (seconds d) Hbound) in Hpos. unfold Double.u in *. split; lra.
    - destruct (y_nonpos (seconds d) Hbound ltac:(lia)) as [H1 H2].
      assert (inject_Z (seconds d) < 0) by (apply (S_sign (seconds d) Hbound); lia).
      unfold Double.u in *. split; lra. }
  destruct Hy as [Hy1 Hy2].
  destruct (Qle_bool (inject_Z (2 ^ 1024)) _) eqn:H1.
  { apply Qle_bool_iff in H1. lra. }
  destruct (Qle_bool _ (inject_Z (- 2 ^ 1024))) eqn:H2.
  { apply Qle_bool_iff in H2. lra. }
  reflexivity.
Qed.

Lemma hours_full_bounded :
  DurationD.hours_full d
  = Ok (Double.round (Double.round (inject_Z (seconds d) / 60) / 60)).
Proof. unfold DurationD.hours_full, DurationD.minutes_full. rewrite truediv_bounded. reflexivity. Qed.

Lemma minutes_bounded :
  DurationD.minutes d = Ok (Double.float_mod (Double.round (inject_Z (seconds d) / 60)) 60).
Proof. unfold DurationD.minutes. rewrite truediv_bounded. reflexivity. Qed.

(** Below 2^50 the doubles print what the integers say. *)
Lemma str_double_bounded : DurationD.str d = Ok (hours_minutes (seconds d)).
Proof.
  unfold DurationD.str. rewrite hours_full_bounded, minutes_bounded.
  unfold DurationM.fmt_d, hours_minutes.
  rewrite (minutes_trunc (seconds d) Hbound).
  pose proof (hours_lt_1 (seconds d) Hbound) as Hlt.
  destruct (Qlt_le_dec _ 1) as [Hh | Hh].
  - apply Hlt in Hh. destruct (Z.leb_spec 3600 (seconds d)); [lia | reflexivity].
  - destruct (Z.leb_spec 3600 (seconds d)) as [Hge | Hlt'].
    + rewrite (hours_trunc (seconds d) Hbound) by lia.
      rewrite Z.quot_div_nonneg by lia.
      rewrite append_assoc. reflexivity.
    + apply Hlt in Hlt'. lra.
Qed.

End DurationDoubles.

(** C5: the text of a Duration is "<H>h <M>m" when hours_full() >= 1 and
    "<M>m" otherwise, for every second count on which the division
    returns, zero and negative ones included, H and M being hours_full()
    and minutes() cut to integers; no seconds appear.  For second counts
    below 2^50 in absolute value the division returns, H is
    seconds ÷ 3600 and M is (seconds / 60) mod 60, as over the exact
    rationals.  0s is "0m", 59s "0m", 60s "1m", 3599s "59m", 3600s
    "1h 0m" and 7530s "2h 5m". *)
Theorem str_format (d : Duration) :
  (∀ text, DurationD.str d = Ok text →
     ∃ h m, DurationD.hours_full d = Ok h ∧ DurationD.minutes d = Ok m
       ∧ ((1 <= h)%Q →
          text = DurationM.dec (DurationM.trunc h) ++ "h "
                 ++ DurationM.dec (DurationM.trunc m) ++ "m")
       ∧ ((h < 1)%Q → text = DurationM.dec (DurationM.trunc m) ++ "m"))
  ∧ (- 2 ^ 50 < seconds d < 2 ^ 50 →
     DurationD.str d = Ok (hours_minutes (seconds d))
     ∧ DurationD.str d = Ok (DurationM.str d)
     ∧ ∃ h m, DurationD.hours_full d = Ok h ∧ DurationD.minutes d = Ok m
         ∧ ((h < 1)%Q ↔ seconds d < 3600)
         ∧ (0 <= seconds d → DurationM.trunc h = seconds d ÷ 3600)
         ∧ DurationM.trunc m = (seconds d / 60) mod 60)
  ∧ DurationD.str {| seconds := 0 |} = Ok "0m"
  ∧ DurationD.str {| seconds := 59 |} = Ok "0m"
  ∧ DurationD.str {| seconds := 60 |} = Ok "1m"
  ∧ DurationD.str {| seconds := 3599 |} = Ok "59m"
  ∧ DurationD.str {| seconds := 3600 |} = Ok "1h 0m"
  ∧ DurationD.str {| seconds := 7530 |} = Ok "2h 5m".
Proof.
  split; [| split].
  - intros text. unfold DurationD.str.
    destruct (DurationD.hours_full d) as [h | e]; [| discriminate].
    destruct (DurationD.minutes d) as [m | e]; [| discriminate].
    intros [= <-]. exists h, m. unfold DurationM.fmt_d.
    split; [reflexivity |]. split; [reflexivity |].
    destruct (Qlt_le_dec h 1) as [Hlt | Hge]; split; intros Hh.
    + apply Qle_not_lt in Hh. contradiction.
    + reflexivity.
    + apply append_assoc.
    + apply Qle_not_lt in Hge. contradiction.
  - intros Hbound. split; [apply str_double_bounded, Hbound |].
    split; [rewrite str_hours_minutes; apply str_double_bounded, Hbound |].
    eexists _, _. split; [apply hours_full_bounded, Hbound |].
    split; [apply minutes_bounded, Hbound |].
    split; [apply (hours_lt_1 (seconds d) Hbound) |].
    split; [| apply (minutes_trunc (seconds d) Hbound)].
    intros Hpos. rewrite Z.quot_div_nonneg by lia.
    apply (hours_trunc (seconds d) Hbound Hpos).
  - repeat split; vm_compute; reflexivity.
Qed.

Lemma str_format_witness :
  DurationD.str {| seconds := 9000 |} = Ok "2h 30m"
  ∧ DurationD.str {| seconds := -90 |} = Ok "58m".
Proof.
  split.
  - destruct (str_format {| seconds := 9000 |}) as (_ & H & _).
    destruct H as [H _]; [cbn; lia |]. rewrite H. vm_compute. reflexivity.
  - destruct (str_format {| seconds := -90 |}) as (Hshape & _).
    destruct (Hshape "58m") as (h & m & Hh & Hm & _ & Hlt); [vm_compute; reflexivity |].
    vm_compute. reflexivity.
Defined.

(** Past 2^53 the doubles and the exact rationals part: for 2^63 - 1
    seconds Python prints 28 minutes, the exact quotient has 30. *)
Lemma str_double_beyond_2_53 :
  DurationD.str {| seconds := 2 ^ 63 - 1 |} = Ok "2562047788015215h 28m"
  ∧ DurationM.str {| seconds := 2 ^ 63 - 1 |} = "2562047788015215h 30m"
  ∧ DurationD.str {| seconds := 16888498602639419 |} = Ok "4691249611844h 17m"
  ∧ DurationD.str {| seconds := 17466695717273999 |} = Ok "4851859921465h 0m".
Proof. repeat split; vm_compute; reflexivity. Qed.

(** X2: for a second count below 2^50 in absolute value, negative ones
    included, the minutes Duration prints are from 0 to 59; when the
    count is not negative, the hours and minutes it prints account for
    all of it but less than one minute. *)
Theorem str_accounts_for_seconds (d : Duration) :
  - 2 ^ 50 < seconds d < 2 ^ 50 →
  ∃ h m,
    DurationD.hours_full d = Ok h ∧ DurationD.minutes d = Ok m
    ∧ 0 <= DurationM.trunc m <= 59
    ∧ (0 <= seconds d →
       0 <= DurationM.trunc h
       ∧ 0 <= seconds d - (3600 * DurationM.trunc h + 60 * DurationM.trunc m) < 60).
Proof.
  intros Hbound. eexists _, _.
  split; [apply hours_full_bounded, Hbound |].
  split; [apply minutes_bounded, Hbound |].
  rewrite (minutes_trunc (seconds d) Hbound). split.
  - Z.to_euclidean_division_equations. lia.
  - intros Hpos. rewrite (hours_trunc (seconds d) Hbound Hpos).
    Z.to_euclidean_division_equations. lia.
Qed.

Lemma str_accounts_for_seconds_witness :
  ∃ h m,
    DurationD.hours_full {| seconds := 7530 |} = Ok h
    ∧ DurationD.minutes {| seconds := 7530 |} = Ok m
    ∧ 0 <= DurationM.trunc m <= 59
    ∧ (0 <= 7530 →
       0 <= DurationM.trunc h
       ∧ 0 <= 7530 - (3600 * DurationM.trunc h + 60 * DurationM.trunc m) < 60).
Proof.
  apply (str_accounts_for_seconds {| seconds := 7530 |}). cbn. lia.
Defined.

(** C3 fails on the code: Duration built from a span keeps the span's
    [seconds] field and drops its days, where the integer path keeps the
    whole count.  The span of one day gives 0 seconds, not 86400; the
    span of minus one second gives 86399, not -1, so that an event that
    started one second ago is "23h 59m" away; a length of 25 hours is
    printed "1h 0m", and "25h 0m" when the same count comes as an
    integer. *)
Theorem timedelta_days_are_dropped :
  DurationM.init (PyTimedelta (Timedelta.make 1 0 0)) = Ok {| seconds := 0 |}
  ∧ Timedelta.whole_seconds_floor (Timedelta.make 1 0 0) = 86400
  ∧ Timedelta.whole_seconds_trunc (Timedelta.make 1 0 0) = 86400
  ∧ DurationM.init (PyInt 86400) = Ok {| seconds := 86400 |}
  ∧ DurationM.init (PyTimedelta (Timedelta.make 0 (-1) 0)) = Ok {| seconds := 86399 |}
  ∧ Timedelta.whole_seconds_floor (Timedelta.make 0 (-1) 0) = -1
  ∧ Timedelta.whole_seconds_trunc (Timedelta.make 0 (-1) 0) = -1
  ∧ EventM.time_until (Sample.env Sample.ticking []) Sample.sync_event 1%nat
    = Ok ({| seconds := 86399 |}, 2%nat)
  ∧ DurationD.str {| seconds := 86399 |} = Ok "23h 59m"
  ∧ DurationM.init (PyTimedelta (Timedelta.make 0 (25 * 3600) 0))
    = Ok {| seconds := 3600 |}
  ∧ Timedelta.whole_seconds_floor (Timedelta.make 0 (25 * 3600) 0) = 90000
  ∧ DurationD.str {| seconds := 3600 |} = Ok "1h 0m"
  ∧ DurationD.str {| seconds := 90000 |} = Ok "25h 0m".
Proof. repeat split; vm_compute; reflexivity. Qed.

(** C6: for every sequence of events collected over the kept calendars,
    the calendars of the provider's list with a tracked name,
    get_next_events returns that sequence sorted: the same events, in
    non-decreasing order of start, those with equal starts in their fetch
    order, which determines the result; and whatever get_next_events
    returns is obtained in this way. *)
Theorem get_next_events_sorted_stable (E : Env) (calendar_names : list string) (n : nat) :
  (∀ cals all_events n',
     calendarList_list E = Ok cals →
     Forall (λ cal, is_Some (cal !! "summary")) (default [] cals) →
     GoogleCalendar.collect E
       (filter (λ cal, tracked calendar_names cal = true) (default [] cals)) [] n
     = Ok (all_events, n') →
     ∃ out,
       GoogleCalendar.get_next_events E calendar_names n = Ok (out, n')
       ∧ stable_sort_of all_events out
       ∧ (∀ i j e1 e2, (i < j)%nat → out !! i = Some e1 → out !! j = Some e2 →
            instant (start e1) <= instant (start e2))
       ∧ (∀ l, stable_sort_of all_events l → l = out))
  ∧ (∀ out n',
       GoogleCalendar.get_next_events E calendar_names n = Ok (out, n') →
       ∃ cals all_events,
         calendarList_list E = Ok cals
         ∧ Forall (λ cal, is_Some (cal !! "summary")) (default [] cals)
         ∧ GoogleCalendar.collect E
             (filter (λ cal, tracked calendar_names cal = true) (default [] cals)) [] n
           = Ok (all_events, n')
         ∧ stable_sort_of all_events out
         ∧ (∀ i j e1 e2, (i < j)%nat → out !! i = Some e1 → out !! j = Some e2 →
              instant (start e1) <= instant (start e2))
         ∧ (∀ l, stable_sort_of all_events l → l = out)).
Proof.
  assert (Hsort : ∀ all_events,
            stable_sort_of all_events (GoogleCalendar.sort_by_start all_events)
            ∧ (∀ i j e1 e2, (i < j)%nat →
                 GoogleCalendar.sort_by_start all_events !! i = Some e1 →
                 GoogleCalendar.sort_by_start all_events !! j = Some e2 →
                 instant (start e1) <= instant (start e2))
            ∧ (∀ l, stable_sort_of all_events l →
                 l = GoogleCalendar.sort_by_start all_events)).
  { intros all_events.
    assert (Hst : stable_sort_of all_events (GoogleCalendar.sort_by_start all_events)).
    { split; [apply sort_by_start_perm |].
      split; [apply sort_by_start_sorted |].
      intros t. apply sort_by_start_stable. }
    split; [exact Hst |]. split.
    - intros i j e1 e2 Hij H1 H2.
      destruct Hst as (_ & Hsorted & _).
      apply list_elem_of_split_length in H1 as (l1 & l2 & Heq & Hlen).
      rewrite Heq in Hsorted, H2.
      apply StronglySorted_app in Hsorted as (_ & _ & Hsorted).
      apply StronglySorted_inv in Hsorted as [_ Hall2].
      rewrite lookup_app_r in H2 by lia.
      destruct (j - length l1)%nat as [| m] eqn:Hm; [lia |].
      cbn in H2. rewrite Forall_forall in Hall2.
      apply Hall2. eapply list_elem_of_lookup_2. exact H2.
    - intros l (_ & Hsorted & Hstable).
      destruct Hst as (_ & Hsorted' & Hstable').
      apply stable_sorted_unique; [assumption | assumption |].
      intros t. rewrite Hstable, Hstable'. reflexivity. }
  split.
  - intros cals all_events n' Hcals Hsummary Hcollect.
    exists (GoogleCalendar.sort_by_start all_events). split; [| apply Hsort].
    unfold GoogleCalendar.get_next_events, mbind, M_bind, lift. rewrite Hcals.
    rewrite (applicable_filter calendar_names _ n Hsummary), Hcollect. reflexivity.
  - intros out n' H.
    apply get_next_events_Ok in H as (cals & kept & all_events & Hcals & Hkept & Hall & ->).
    assert (Hsummary : Forall (λ cal : gmap string string, is_Some (cal !! "summary"))
                              (default [] cals)).
    { destruct (decide (Forall (λ cal : gmap string string, is_Some (cal !! "summary"))
                               (default [] cals))) as [Hyes | Hno]; [exact Hyes |].
      rewrite (applicable_missing _ _ _ Hno) in Hkept. discriminate Hkept. }
    apply applicable_Ok_filter in Hkept. subst kept.
    exists cals, all_events.
    split; [exact Hcals |]. split; [exact Hsummary |]. split; [exact Hall |].
    apply Hsort.
Qed.

Lemma get_next_events_sorted_stable_witness :
  (∃ out,
     GoogleCalendar.get_next_events
       (Sample.env Sample.ticking [Sample.standup; Sample.lunch]) ["Work"; "Life"] 0%nat
     = Ok (out, 7%nat)
     ∧ stable_sort_of
         [Sample.lunch_event "#222"; Sample.standup_event; Sample.lunch_event "#111"] out
     ∧ (∀ i j e1 e2, (i < j)%nat → out !! i = Some e1 → out !! j = Some e2 →
          instant (start e1) <= instant (start e2))
     ∧ (∀ l, stable_sort_of
               [Sample.lunch_event "#222"; Sample.standup_event; Sample.lunch_event "#111"]
               l → l = out))
  ∧ (∃ cals all_events,
       calendarList_list (Sample.env Sample.ticking [Sample.standup; Sample.lunch])
       = Ok cals
       ∧ Forall (λ cal, is_Some (cal !! "summary")) (default [] cals)
       ∧ GoogleCalendar.collect
           (Sample.env Sample.ticking [Sample.standup; Sample.lunch])
           (filter (λ cal, tracked ["Work"; "Life"] cal = true) (default [] cals))
           [] 0%nat
         = Ok (all_events, 7%nat)
       ∧ stable_sort_of all_events
           [Sample.standup_event; Sample.lunch_event "#222"; Sample.lunch_event "#111"]
       ∧ (∀ i j e1 e2, (i < j)%nat →
            [Sample.standup_event; Sample.lunch_event "#222"; Sample.lunch_event "#111"]
              !! i = Some e1 →
            [Sample.standup_event; Sample.lunch_event "#222"; Sample.lunch_event "#111"]
              !! j = Some e2 →
            instant (start e1) <= instant (start e2))
       ∧ (∀ l, stable_sort_of all_events l →
            l = [Sample.standup_event; Sample.lunch_event "#222";
                 Sample.lunch_event "#111"])).
Proof.
  split.
  - apply (proj1 (get_next_events_sorted_stable
                    (Sample.env Sample.ticking [Sample.standup; Sample.lunch])
                    ["Work"; "Life"] 0%nat) (Some [Sample.life; Sample.work])).
    + reflexivity.
    + repeat constructor; eexists; reflexivity.
    + vm_compute. reflexivity.
  - apply (proj2 (get_next_events_sorted_stable
                    (Sample.env Sample.ticking [Sample.standup; Sample.lunch])
                    ["Work"; "Life"] 0%nat)).
    vm_compute. reflexivity.
Defined.
